(** * FKBB: station identity resolution and incremental pair aggregation

    A shallow embedding of [scripts/process_data.py]: the geo-identity
    resolver ([generate_station_uuid], [create_station_registry],
    [add_station_uuids_to_dataframe]), the pair aggregator
    ([calculate_fastest_times]), the incremental merge
    ([create_station_data]) and the month loop of [main].

    Python floats are binary64 values, modelled by Rocq's primitive floats.
    Dictionaries are finite maps, data frames are lists of rows. *)

From Stdlib Require Import ZArith List String Ascii Floats Uint63 DecimalString Lia.
From stdpp Require Import base option list sorting gmap strings.

Open Scope Z_scope.

Set Default Proof Using "Type*".

(** ** Python builtins on floats and integers *)

(** Rows are compared by value: equality of binary64 data is decidable. *)
#[global] Instance float_eq_dec : EqDecision float.
Proof.
  intros x y. destruct (PrimFloat.Leibniz.eqb x y) eqn:E.
  - left. apply FloatAxioms.Leibniz.eqb_spec. exact E.
  - right. intros ->.
    assert (PrimFloat.Leibniz.eqb y y = true) as H
      by (apply FloatAxioms.Leibniz.eqb_spec; reflexivity).
    rewrite H in E. discriminate.
Defined.

(** [int(x)]: truncation toward zero; raises on NaN and on the infinities. *)
Definition py_int (x : float) : option Z :=
  match Prim2SF x with
  | S754_zero _ => Some 0
  | S754_finite s m e =>
      let q := Z.shiftl (Z.pos m) e in
      Some (if s then - q else q)
  | _ => None
  end.

(** [math.floor(x)], the floor of the value of [x]. *)
Definition float_floor (x : float) : option Z :=
  match Prim2SF x with
  | S754_zero _ => Some 0
  | S754_finite s m e => Some (Z.shiftl (if s then Z.neg m else Z.pos m) e)
  | _ => None
  end.

(** [x % 1]: the C [fmod], whose result is exact, then CPython's adjustment
    that gives a non-zero remainder the sign of the divisor. *)
Definition py_mod1 (x : float) : float :=
  match Prim2SF x with
  | S754_zero _ => 0%float
  | S754_finite s m e =>
      let r := if 0 <=? e then 0 else Z.land (Z.pos m) (Z.ones (- e)) in
      let f := Z.ldexp (of_uint63 (of_Z r)) e in
      if negb s then f
      else if r =? 0 then 0%float else (- f + 1)%float
  | _ => nan
  end.

(** [str(n)] for an integer. *)
Definition py_str_int (n : Z) : string :=
  NilZero.string_of_int (Z.to_int n).

(** [f"{n:02d}"]: at least two characters, zero-padded after the sign. *)
Definition py_format_02d (n : Z) : string :=
  if (0 <=? n) && (n <? 10) then ("0" ++ py_str_int n)%string else py_str_int n.

(** [f"{int(current_time)}:{int((current_time % 1) * 60):02d}"]
    (create_station_data, line 471). [None] stands for the exception that
    [int] raises. *)
Definition format_minutes (current_time : float) : option string :=
  whole ← py_int current_time;
  secs ← py_int (py_mod1 current_time * 60)%float;
  Some (py_str_int whole ++ ":" ++ py_format_02d secs)%string.

(** The duration format in the words of the specification:
    [floor(m):floor((m mod 1)*60)], the second part zero-padded to two
    digits. *)
Definition spec_format_minutes (m : float) : option string :=
  whole ← float_floor m;
  secs ← float_floor (py_mod1 m * 60)%float;
  Some (py_str_int whole ++ ":" ++ py_format_02d secs)%string.

(** [sorted(l)] on a list, as an insertion sort for a given comparison. *)
Fixpoint insert_by {A} (leb : A -> A -> bool) (x : A) (l : list A) : list A :=
  match l with
  | [] => [x]
  | y :: l' => if leb x y then x :: l else y :: insert_by leb x l'
  end.

Definition sort_by {A} (leb : A -> A -> bool) (l : list A) : list A :=
  foldr (insert_by leb) [] l.

(** [sorted] on strings: Python orders [str] by code point, which is the
    order of the encoded bytes. *)
Definition py_sorted (l : list string) : list string := sort_by String.leb l.

(** pandas [drop_duplicates()]: the first occurrence of every row is kept. *)
Fixpoint drop_duplicates_from {A} `{EqDecision A} (seen l : list A) : list A :=
  match l with
  | [] => []
  | x :: l' =>
      if decide (x ∈ seen) then drop_duplicates_from seen l'
      else x :: drop_duplicates_from (x :: seen) l'
  end.

Definition drop_duplicates {A} `{EqDecision A} (l : list A) : list A :=
  drop_duplicates_from [] l.

(** [s.endswith(suffix)]. *)
Definition endswith (s suffix : string) : bool :=
  (String.length suffix <=? String.length s)%nat
  && String.eqb
       (substring (String.length s - String.length suffix) (String.length suffix) s)
       suffix.

(** [sub in s] on strings. *)
Fixpoint contains (sub s : string) : bool :=
  String.prefix sub s
  || match s with
     | EmptyString => false
     | String _ s' => contains sub s'
     end.

(** [s.replace(old, new)] for a non-empty [old]: the occurrences of [old]
    are found from the left, without overlap. [skip] counts the characters
    of an occurrence that are still to be passed over. *)
Fixpoint replace_from (old new : string) (skip : nat) (s : string) : string :=
  match s with
  | EmptyString => EmptyString
  | String c s' =>
      match skip with
      | S k => replace_from old new k s'
      | O =>
          if String.prefix old s
          then (new ++ replace_from old new (String.length old - 1) s')%string
          else String c (replace_from old new 0 s')
      end
  end.

Definition str_replace (old new s : string) : string := replace_from old new 0 s.

(** [os.path.join(a, b)] on a POSIX system. *)
Definition os_path_join (a b : string) : string :=
  if String.prefix "/" b then b
  else if String.eqb a EmptyString || endswith a "/"
       then (a ++ b)%string
       else (a ++ "/" ++ b)%string.

(** ** Data model *)

(** One row of a month's trip table as it stands at line 335 of
    [process_data.py]: legacy column names renamed, [ride_id] present,
    [duration_minutes] computed. A missing string cell is [None]; a missing
    numeric cell is NaN, as in pandas. *)
Record trip := Trip {
  ride_id : string;
  rideable_type : option string;
  started_at : Z;
  start_station_id : option string;
  start_station_name : option string;
  start_lat : float;
  start_lng : float;
  end_station_id : option string;
  end_station_name : option string;
  end_lat : float;
  end_lng : float;
  duration_minutes : float
}.

(** A month's file: whether it has the modern [rideable_type] column, and
    its rows. *)
Record month_file := MonthFile {
  has_rideable_type : bool;
  file_rows : list trip
}.

(** The four station columns of one end of a trip. *)
Definition station_row : Type := option string * option string * float * float.

Definition start_station_columns (t : trip) : station_row :=
  (start_station_id t, start_station_name t, start_lat t, start_lng t).

Definition end_station_columns (t : trip) : station_row :=
  (end_station_id t, end_station_name t, end_lat t, end_lng t).

(** pandas [notna] on a numeric cell. *)
Definition notna (x : float) : bool := negb (is_nan x).

(** pandas [dropna()] on the station columns: rows with all four cells
    present, with the cells unwrapped. *)
Definition station_row_notna (r : station_row) : option (string * string * float * float) :=
  match r with
  | (Some id, Some name, lat, lng) =>
      if notna lat && notna lng then Some (id, name, lat, lng) else None
  | _ => None
  end.

Definition dropna (rows : list station_row) : list (string * string * float * float) :=
  omap station_row_notna rows.

(** A registry entry while [create_station_registry] builds it (the id and
    name collections are still sets). *)
Record station_acc := StationAcc {
  acc_uuid : string;
  acc_lat : float;
  acc_lng : float;
  acc_current_name : string;
  acc_bluebike_ids : gset string;
  acc_all_names : gset string
}.

(** A registry entry as returned and persisted. *)
Record station_info := StationInfo {
  reg_uuid : string;
  reg_lat : float;
  reg_lng : float;
  current_name : string;
  bluebike_ids : list string;
  all_names : list string
}.

(** A trip with the two identity columns that
    [add_station_uuids_to_dataframe] adds. *)
Record mapped_trip := MappedTrip {
  trip_of : trip;
  start_station_uuid : string;
  end_station_uuid : string
}.

(** One row of the per-month pair table returned by
    [calculate_fastest_times]; [row_fastest_ride] carries the columns of the
    fastest ride (names, coordinates, duration, start time, ride id). *)
Record pair_row := PairRow {
  row_start_station_uuid : string;
  row_end_station_uuid : string;
  row_fastest_time_minutes : float;
  row_trip_count : Z;
  row_fastest_ride : trip;
  row_distance_km : float
}.

(** An entry of a station's [destinations] dictionary. *)
Record destination := Destination {
  dest_uuid : string;
  dest_name : option string;
  fastest_time_minutes : float;
  fastest_time_formatted : string;
  trip_count : Z;
  distance_km : float;
  dest_ride_id : string;
  date : string
}.

(** An entry of the cumulative [stations] dictionary. *)
Record station := Station {
  st_uuid : string;
  st_name : option string;
  st_lat : option float;
  st_lng : option float;
  st_bluebike_ids : list string;
  st_all_names : list (option string);
  destinations : gmap string destination
}.

(** ** Operations *)

Section Pipeline.

(** Library functions the script calls, whose code is not part of the
    repository: the builtin [round(x, ndigits)], the text of a float in an
    f-string, [str(uuid.UUID(bytes=hashlib.md5(s.encode()).digest()))], the
    [math] functions and float power used by the haversine formula, and
    [Timestamp.strftime('%Y-%m-%d %H:%M:%S')]. *)
Context (py_round : float -> Z -> float)
        (py_str_float : float -> string)
        (md5_uuid : string -> string)
        (math_radians math_sin math_cos math_asin math_sqrt : float -> float)
        (py_pow : float -> float -> float)
        (strftime : Z -> string).

(** The text that is hashed: [f"{rounded_lat},{rounded_lng}"]. *)
Definition coordinate_string (lat lng : float) : string :=
  (py_str_float (py_round lat 6) ++ "," ++ py_str_float (py_round lng 6))%string.

(** Lines 16-27. *)
Definition generate_station_uuid (lat lng : float) : string :=
  md5_uuid (coordinate_string lat lng).

(** The body of the two loops of [create_station_registry] (lines 37-55 and
    61-79). *)
Definition registry_add (station_registry : gmap string station_acc)
    (row : string * string * float * float) : gmap string station_acc :=
  let '(bluebike_id, station_name, lat, lng) := row in
  let station_uuid := generate_station_uuid lat lng in
  let entry :=
    match station_registry !! station_uuid with
    | Some e => e
    | None => StationAcc station_uuid lat lng station_name ∅ ∅
    end in
  <[station_uuid :=
      StationAcc (acc_uuid entry) (acc_lat entry) (acc_lng entry)
        station_name
        ({[bluebike_id]} ∪ acc_bluebike_ids entry)
        ({[station_name]} ∪ acc_all_names entry)]> station_registry.

(** Lines 82-84: the sets become sorted lists. *)
Definition registry_finish (e : station_acc) : station_info :=
  StationInfo (acc_uuid e) (acc_lat e) (acc_lng e) (acc_current_name e)
    (py_sorted (elements (acc_bluebike_ids e)))
    (py_sorted (elements (acc_all_names e))).

Definition start_stations (df : list trip) : list (string * string * float * float) :=
  dropna (drop_duplicates (start_station_columns <$> df)).

Definition end_stations (df : list trip) : list (string * string * float * float) :=
  dropna (drop_duplicates (end_station_columns <$> df)).

Definition registry_acc (df : list trip) : gmap string station_acc :=
  fold_left registry_add (end_stations df)
    (fold_left registry_add (start_stations df) ∅).

(** Lines 29-87. *)
Definition create_station_registry (df : list trip) : gmap string station_info :=
  registry_finish <$> registry_acc df.

(** Lines 92-96: the lookup from coordinate text to identity. *)
Definition coord_to_uuid (station_registry : gmap string station_info) : gmap string string :=
  map_fold (fun station_uuid station_info acc =>
              <[coordinate_string (reg_lat station_info) (reg_lng station_info)
                := station_uuid]> acc)
           ∅ station_registry.

(** Lines 99-110 for one row: both lookups, and the row is dropped when
    either is missing. *)
Definition map_trip (lookup : gmap string string) (t : trip) : option mapped_trip :=
  match lookup !! coordinate_string (start_lat t) (start_lng t),
        lookup !! coordinate_string (end_lat t) (end_lng t) with
  | Some s, Some e => Some (MappedTrip t s e)
  | _, _ => None
  end.

(** Lines 89-116. *)
Definition add_station_uuids_to_dataframe (df : list trip)
    (station_registry : gmap string station_info) : list mapped_trip :=
  omap (map_trip (coord_to_uuid station_registry)) df.

(** Lines 336-347: the validity filter. *)
Definition valid_trip (t : trip) : bool :=
  (1 <? duration_minutes t)%float &&
  (duration_minutes t <? 1440)%float &&
  bool_decide (is_Some (start_station_name t)) &&
  bool_decide (is_Some (end_station_name t)) &&
  bool_decide (is_Some (start_station_id t)) &&
  bool_decide (is_Some (end_station_id t)) &&
  notna (start_lat t) && notna (start_lng t) &&
  notna (end_lat t) && notna (end_lng t).

(** Lines 297-300: a modern file keeps its classic bikes only. *)
Definition classic_rows (f : month_file) : list trip :=
  if has_rideable_type f
  then filter (fun t => rideable_type t = Some "classic_bike"%string) (file_rows f)
  else file_rows f.

(** Lines 294-358 of [download_and_process_data], from the parsed file on. *)
Definition process_month_file (f : month_file)
    : list mapped_trip * gmap string station_info :=
  let df := filter (fun t => valid_trip t) (classic_rows f) in
  let station_registry := create_station_registry df in
  (add_station_uuids_to_dataframe df station_registry, station_registry).

(** Lines 360-376. *)
Definition haversine_distance (lat1 lng1 lat2 lng2 : float) : float :=
  let lat1 := math_radians lat1 in
  let lng1 := math_radians lng1 in
  let lat2 := math_radians lat2 in
  let lng2 := math_radians lng2 in
  let dlat := (lat2 - lat1)%float in
  let dlng := (lng2 - lng1)%float in
  let a := (py_pow (math_sin (dlat / 2)) 2
            + math_cos lat1 * math_cos lat2 * py_pow (math_sin (dlng / 2)) 2)%float in
  let c := (2 * math_asin (math_sqrt a))%float in
  let r := 6371%float in
  (c * r)%float.

(** The group key of [groupby(['start_station_uuid', 'end_station_uuid'])]. *)
Definition pair_key (r : mapped_trip) : string * string :=
  (start_station_uuid r, end_station_uuid r).

(** Order of the group keys: pairs of strings, lexicographically. *)
Definition pair_leb (a b : string * string) : bool :=
  match String.compare a.1 b.1 with
  | Lt => true
  | Gt => false
  | Eq => String.leb a.2 b.2
  end.

(** The groups, in the sorted key order pandas gives them. *)
Definition groupby (df : list mapped_trip) : list (string * string * list mapped_trip) :=
  (fun k => (k, filter (fun r => pair_key r = k) df))
    <$> sort_by pair_leb (drop_duplicates (pair_key <$> df)).

(** The [min] aggregate and [idxmin] over one group. Both scan the group in
    row order and move only on a strictly smaller duration, so [idxmin]
    names the first row that attains the minimum. The frame reaching this
    point has passed the validity filter, so no duration is NaN and the
    NaN-skipping of pandas does not come into play. *)
Definition faster (best r : mapped_trip) : mapped_trip :=
  if (duration_minutes (trip_of r) <? duration_minutes (trip_of best))%float
  then r else best.

Definition idxmin (first : mapped_trip) (others : list mapped_trip) : mapped_trip :=
  fold_left faster others first.

Definition float_min (a b : float) : float :=
  if (b <? a)%float then b else a.

Definition min_duration (first : mapped_trip) (others : list mapped_trip) : float :=
  fold_left float_min (duration_minutes ∘ trip_of <$> others)
    (duration_minutes (trip_of first)).

(** Lines 384-414 for one group: the aggregates joined with the details of
    the fastest ride, and the distance computed from that ride's
    coordinates. *)
Definition group_row (g : string * string * list mapped_trip) : option pair_row :=
  match g.2 with
  | [] => None
  | first :: others =>
      let ride := trip_of (idxmin first others) in
      Some (PairRow g.1.1 g.1.2
              (min_duration first others)
              (Z.of_nat (length g.2))
              ride
              (haversine_distance (start_lat ride) (start_lng ride)
                 (end_lat ride) (end_lng ride)))
  end.

(** Lines 378-417. *)
Definition calculate_fastest_times (df : list mapped_trip) : list pair_row :=
  omap group_row (groupby df).

(** Lines 432-437: [sorted(list(set(a + b)))]. *)
Definition sorted_union (a b : list string) : list string :=
  py_sorted (drop_duplicates (a ++ b)).

(** Lines 428-441: the month's registry folded into the cumulative one. Each
    key is handled on its own, so the order in which the month's entries are
    visited does not show in the result. *)
Definition merge_registry (station_registry existing_registry : gmap string station_info)
    : gmap string station_info :=
  map_fold (fun uuid info merged_registry =>
              match merged_registry !! uuid with
              | Some old =>
                  <[uuid := StationInfo (reg_uuid old) (reg_lat old) (reg_lng old)
                              (current_name info)
                              (sorted_union (bluebike_ids old) (bluebike_ids info))
                              (sorted_union (all_names old) (all_names info))]>
                    merged_registry
              | None => <[uuid := info]> merged_registry
              end)
           existing_registry station_registry.

(** Lines 450-459: the entry created for a start station that is not yet in
    [stations]. *)
Definition new_station (merged_registry : gmap string station_info)
    (row : pair_row) : station :=
  let start_station_uuid := row_start_station_uuid row in
  match merged_registry !! start_station_uuid with
  | Some info =>
      Station start_station_uuid (Some (current_name info))
        (Some (reg_lat info)) (Some (reg_lng info))
        (bluebike_ids info) (Some <$> all_names info) ∅
  | None =>
      Station start_station_uuid (start_station_name (row_fastest_ride row))
        None None [] [start_station_name (row_fastest_ride row)] ∅
  end.

(** Lines 466-476: the entry written when the pair is new or the month's
    time is faster. *)
Definition new_destination (merged_registry : gmap string station_info)
    (row : pair_row) (formatted : string) : destination :=
  let end_station_uuid := row_end_station_uuid row in
  Destination end_station_uuid
    (match merged_registry !! end_station_uuid with
     | Some info => Some (current_name info)
     | None => end_station_name (row_fastest_ride row)
     end)
    (row_fastest_time_minutes row)
    formatted
    (row_trip_count row)
    (py_round (row_distance_km row) 2)
    (ride_id (row_fastest_ride row))
    (strftime (started_at (row_fastest_ride row))).

(** Line 479: only the count of the kept entry changes. *)
Definition add_trip_count (existing_dest : destination) (row : pair_row) : destination :=
  Destination (dest_uuid existing_dest) (dest_name existing_dest)
    (fastest_time_minutes existing_dest) (fastest_time_formatted existing_dest)
    (trip_count existing_dest + row_trip_count row)
    (distance_km existing_dest) (dest_ride_id existing_dest) (date existing_dest).

Definition set_destination (st : station) (end_station_uuid : string)
    (d : destination) : station :=
  Station (st_uuid st) (st_name st) (st_lat st) (st_lng st)
    (st_bluebike_ids st) (st_all_names st)
    (<[end_station_uuid := d]> (destinations st)).

(** Lines 443-479: the body of the loop over the rows of the pair table.
    [None] is the exception raised by [int] inside the time format. *)
Definition merge_row (merged_registry : gmap string station_info)
    (stations : gmap string station) (row : pair_row) : option (gmap string station) :=
  let start_station_uuid := row_start_station_uuid row in
  let end_station_uuid := row_end_station_uuid row in
  let st := default (new_station merged_registry row) (stations !! start_station_uuid) in
  let current_time := row_fastest_time_minutes row in
  match destinations st !! end_station_uuid with
  | None =>
      formatted ← format_minutes current_time;
      Some (<[start_station_uuid :=
                set_destination st end_station_uuid
                  (new_destination merged_registry row formatted)]> stations)
  | Some existing_dest =>
      if (current_time <? fastest_time_minutes existing_dest)%float
      then
        formatted ← format_minutes current_time;
        Some (<[start_station_uuid :=
                  set_destination st end_station_uuid
                    (new_destination merged_registry row formatted)]> stations)
      else
        Some (<[start_station_uuid :=
                  set_destination st end_station_uuid
                    (add_trip_count existing_dest row)]> stations)
  end.

Fixpoint merge_rows (merged_registry : gmap string station_info)
    (rows : list pair_row) (stations : gmap string station)
    : option (gmap string station) :=
  match rows with
  | [] => Some stations
  | row :: rows' =>
      stations' ← merge_row merged_registry stations row;
      merge_rows merged_registry rows' stations'
  end.

(** Lines 419-481. *)
Definition create_station_data (fastest_times_df : list pair_row)
    (station_registry : gmap string station_info)
    (existing_stations : gmap string station)
    (existing_registry : gmap string station_info)
    : option (gmap string station * gmap string station_info) :=
  let merged_registry := merge_registry station_registry existing_registry in
  stations ← merge_rows merged_registry fastest_times_df existing_stations;
  Some (stations, merged_registry).

(** The entry of the cumulative pair table for an ordered pair. *)
Definition pair_lookup (stations : gmap string station) (pair : string * string)
    : option destination :=
  st ← stations !! pair.1; destinations st !! pair.2.

(** ** The month loop of [main] *)

(** Lines 146-148. *)
Definition extract_month_from_filename (filename : string) : string :=
  substring 0 6 filename.

(** Lines 639-644: the months still to do, oldest first. *)
Definition unprocessed_months (all_files processed_months : list string) : list string :=
  py_sorted (filter (fun month => month ∉ processed_months)
               (extract_month_from_filename <$> all_files)).

(** Lines 661-665: the first file whose name starts with the month. *)
Definition file_of_month (all_files : list string) (month : string) : option string :=
  List.find (fun f => String.prefix month f) all_files.

(** What the loop carries from month to month. *)
Record run_state := RunState {
  stations_data : gmap string station;
  merged_registry_of : gmap string station_info;
  processed_months : list string
}.

Section Main.

(** Download, unpacking and parsing of a month's file (lines 289-333);
    [None] is any exception raised there. *)
Context (read_month_file : string -> option month_file).

(** Lines 659-708: one turn of the loop. A missing file or an exception
    leaves the state as it was and the loop goes on to the next month. *)
Definition process_month (all_files : list string) (state : run_state)
    (month : string) : run_state :=
  match file_of_month all_files month with
  | None => state
  | Some filename =>
      match read_month_file filename with
      | None => state
      | Some f =>
          let '(df, station_registry) := process_month_file f in
          let fastest_times := calculate_fastest_times df in
          match create_station_data fastest_times station_registry
                  (stations_data state) (merged_registry_of state) with
          | None => state
          | Some (stations, merged) =>
              RunState stations merged (processed_months state ++ [month])
          end
      end
  end.

(** Lines 636-708. *)
Definition main_loop (all_files : list string) (state : run_state) : run_state :=
  fold_left (process_month all_files)
    (unprocessed_months all_files (processed_months state)) state.

End Main.

End Pipeline.

(** ** The list of data files, the cache and the saved state *)

(** Lines 135-139 of [fetch_all_data_files]: the test a key of the bucket
    listing has to pass. *)
Definition is_data_file (filename : string) : bool :=
  endswith filename ".zip" && contains "bluebikes" filename
  && String.leb "201805" (substring 0 6 filename).

(** Lines 132-144, from the texts of the [Key] elements of the listing on.
    [None] is the [ValueError] raised when no file is found. *)
Definition fetch_all_data_files (keys : list string) : option (list string) :=
  let zip_files := filter (fun filename => is_data_file filename = true) keys in
  match zip_files with
  | [] => None
  | _ => Some (py_sorted zip_files)
  end.

(** Lines 205-209, without the creation of the directory. *)
Definition get_cached_file_path (filename cache_type : string) : string :=
  let cache_dir := ("cache/" ++ cache_type)%string in
  os_path_join cache_dir
    (str_replace ".zip" (if String.eqb cache_type "csv" then ".csv" else ".zip") filename).

(** Lines 524 and 571: [station_uuid.replace('-', '')[:12]]. *)
Definition safe_filename (station_uuid : string) : string :=
  substring 0 12 (str_replace "-" EmptyString station_uuid).

(** An entry of [station_pairs] in [data/stations.json]. *)
Record pair_record := PairRecord {
  attempts : Z;
  pr_fastest_time_minutes : float;
  pr_fastest_time_formatted : string;
  fastest_set_at : string;
  pr_ride_id : string;
  pr_distance_km : float
}.

(** The [metadata] object of the file. *)
Record metadata := Metadata {
  meta_processed_months : list string;
  last_updated : string;
  total_stations : Z
}.

(** What [json.load] finds in [data/stations.json]: the format that
    [generate_hugo_content] writes, recognised by its [metadata] key, or the
    older one, in which the station entries sit at the top level beside
    [_metadata] and [_station_registry]. A key that may be absent is an
    option. The entries themselves carry every key, as in a file written by
    this script. *)
Inductive stations_json :=
| NewFormat (metadata : metadata)
    (station_registry : option (gmap string station_info))
    (station_pairs : option (gmap string (gmap string pair_record)))
| OldFormat (_metadata : option metadata)
    (_station_registry : option (gmap string station_info))
    (data : gmap string station).

(** Lines 498-505 of [generate_hugo_content]. *)
Definition pair_record_of (dest_data : destination) : pair_record :=
  PairRecord (trip_count dest_data) (fastest_time_minutes dest_data)
    (fastest_time_formatted dest_data) (date dest_data) (dest_ride_id dest_data)
    (distance_km dest_data).

(** Lines 492-505. *)
Definition station_pairs_of (stations_data : gmap string station)
    : gmap string (gmap string pair_record) :=
  (fun station_data => pair_record_of <$> destinations station_data) <$> stations_data.

(** Lines 508-516: the document written to [data/stations.json]. The text
    of the file is the work of [json.dump]; [json.load] reads the same
    values back. *)
Definition data_with_metadata (stations_data : gmap string station)
    (station_registry : gmap string station_info) (metadata : metadata) : stations_json :=
  NewFormat metadata (Some station_registry) (Some (station_pairs_of stations_data)).

(** Lines 176-186 of [load_existing_data]. *)
Definition load_destination (station_registry : gmap string station_info)
    (dest_uuid : string) (dest_data : pair_record) : destination :=
  let dest_info := station_registry !! dest_uuid in
  Destination dest_uuid
    (Some (default "Unknown"%string (current_name <$> dest_info)))
    (pr_fastest_time_minutes dest_data)
    (pr_fastest_time_formatted dest_data)
    (attempts dest_data)
    (pr_distance_km dest_data)
    (pr_ride_id dest_data)
    (fastest_set_at dest_data).

(** Lines 165-186. *)
Definition load_station (station_registry : gmap string station_info)
    (start_uuid : string) (destinations : gmap string pair_record) : station :=
  let station_info := station_registry !! start_uuid in
  Station start_uuid
    (Some (default "Unknown"%string (current_name <$> station_info)))
    (reg_lat <$> station_info)
    (reg_lng <$> station_info)
    (default [] (bluebike_ids <$> station_info))
    (Some <$> default [] (all_names <$> station_info))
    (map_imap (fun dest_uuid dest_data =>
                 Some (load_destination station_registry dest_uuid dest_data))
       destinations).

Definition default_metadata : metadata := Metadata [] EmptyString 0.

(** Lines 150-203. [None] is a missing file. *)
Definition load_existing_data (file : option stations_json)
    : gmap string station * gmap string station_info * metadata :=
  match file with
  | Some (NewFormat metadata station_registry station_pairs) =>
      let station_registry := default ∅ station_registry in
      let station_pairs := default ∅ station_pairs in
      (map_imap (fun start_uuid destinations =>
                   Some (load_station station_registry start_uuid destinations))
         station_pairs,
       station_registry, metadata)
  | Some (OldFormat _metadata _station_registry data) =>
      (data, default ∅ _station_registry, default default_metadata _metadata)
  | None => (∅, ∅, default_metadata)
  end.

(** ** [create_filename_mapping.py]

    The station names handled here are taken to be ASCII text: on other
    characters the classes [\w] and [\s] and [str.lower] follow the Unicode
    tables, which are not modelled. *)

Definition is_ascii (c : ascii) : bool := (nat_of_ascii c <? 128)%nat.

Definition between (lo hi c : ascii) : bool :=
  (nat_of_ascii lo <=? nat_of_ascii c)%nat && (nat_of_ascii c <=? nat_of_ascii hi)%nat.

(** [\w] on ASCII: letters, digits and the underscore. *)
Definition is_word (c : ascii) : bool :=
  between "a" "z" c || between "A" "Z" c || between "0" "9" c || Ascii.eqb c "_".

(** [\s], and [str.isspace], on ASCII: tab to carriage return, the four
    separators 0x1c to 0x1f, and the space. *)
Definition is_space (c : ascii) : bool :=
  between "009" "013" c || between "028" "031" c || Ascii.eqb c " ".

(** [str.lower] on an ASCII character. *)
Definition lower (c : ascii) : ascii :=
  if between "A" "Z" c then ascii_of_nat (nat_of_ascii c + 32) else c.

(** The characters that [re.sub(r'[^\w\s-]', '', s)] keeps. *)
Definition kept (c : ascii) : bool := is_word c || is_space c || Ascii.eqb c "-".

Fixpoint str_filter (keep : ascii -> bool) (s : string) : string :=
  match s with
  | EmptyString => EmptyString
  | String c s' => if keep c then String c (str_filter keep s') else str_filter keep s'
  end.

Fixpoint str_map (f : ascii -> ascii) (s : string) : string :=
  match s with
  | EmptyString => EmptyString
  | String c s' => String (f c) (str_map f s')
  end.

Fixpoint lstrip (s : string) : string :=
  match s with
  | EmptyString => EmptyString
  | String c s' => if is_space c then lstrip s' else s
  end.

Fixpoint rstrip (s : string) : string :=
  match s with
  | EmptyString => EmptyString
  | String c s' =>
      match rstrip s' with
      | EmptyString => if is_space c then EmptyString else String c EmptyString
      | r => String c r
      end
  end.

(** [s.strip()]. *)
Definition strip (s : string) : string := rstrip (lstrip s).

(** [re.sub(r'[-\s]+', '-', s)]: every maximal run of hyphens and
    whitespace becomes one hyphen. [in_run] tells that the run at hand has
    been replaced already. *)
Fixpoint collapse_runs (in_run : bool) (s : string) : string :=
  match s with
  | EmptyString => EmptyString
  | String c s' =>
      if Ascii.eqb c "-" || is_space c
      then if in_run then collapse_runs true s' else String "-" (collapse_runs true s')
      else String c (collapse_runs false s')
  end.

(** Lines 6-10 of [create_filename_mapping.py]. *)
Definition create_safe_filename (station_name : string) : string :=
  let safe_filename := str_map lower (strip (str_filter kept station_name)) in
  collapse_runs false safe_filename.

(** ** Derived notions

    Names for what the statements below speak of. *)

(** The key of a row of the pair table. *)
Definition row_key (row : pair_row) : string * string :=
  (row_start_station_uuid row, row_end_station_uuid row).

(** The trips of a frame that go from one identity to another. *)
Definition trips_of_pair (df : list mapped_trip) (k : string * string) : list mapped_trip :=
  filter (fun r => pair_key r = k) df.

(** The station rows a frame shows: both ends of every trip. *)
Definition observed_stations (df : list trip) : list station_row :=
  (start_station_columns <$> df) ++ (end_station_columns <$> df).

(** All four station columns present at both ends of a trip. *)
Definition stations_complete (t : trip) : Prop :=
  is_Some (station_row_notna (start_station_columns t))
  /\ is_Some (station_row_notna (end_station_columns t)).

(** What the validity filter asks of a trip. *)
Definition passes_filter (t : trip) : Prop :=
  (1 <? duration_minutes t)%float = true
  /\ (duration_minutes t <? 1440)%float = true
  /\ is_Some (start_station_name t) /\ is_Some (end_station_name t)
  /\ is_Some (start_station_id t) /\ is_Some (end_station_id t)
  /\ notna (start_lat t) = true /\ notna (start_lng t) = true
  /\ notna (end_lat t) = true /\ notna (end_lng t) = true.

(** A float that is not a negative number: zero, positive, infinite or NaN. *)
Definition not_negative (x : spec_float) : Prop :=
  match x with S754_finite true _ _ => False | _ => True end.

(** A float of magnitude below [2 ^ B]: zero, or finite with at most [B]
    digits before the binary point. *)
Definition below (B : Z) (x : spec_float) : Prop :=
  match x with
  | S754_zero _ => True
  | S754_finite _ m e => Z.pos (digits2_pos m) + e <= B
  | _ => False
  end.

(** Every character of a string passes a test. *)
Fixpoint str_forall (p : ascii -> bool) (s : string) : bool :=
  match s with
  | EmptyString => true
  | String c s' => p c && str_forall p s'
  end.

(** The characters that a safe file name is made of. *)
Definition safe_char (c : ascii) : bool :=
  between "a" "z" c || between "0" "9" c || Ascii.eqb c "_" || Ascii.eqb c "-".

(** [d'] holds the record that [d] held, or a strictly faster one. *)
Definition same_or_faster (d d' : destination) : Prop :=
  (fastest_time_minutes d' <? fastest_time_minutes d)%float = true
  \/ (fastest_time_minutes d' = fastest_time_minutes d
      /\ fastest_time_formatted d' = fastest_time_formatted d
      /\ dest_ride_id d' = dest_ride_id d
      /\ date d' = date d
      /\ distance_km d' = distance_km d
      /\ dest_name d' = dest_name d
      /\ dest_uuid d' = dest_uuid d).

(** The fields of a station entry other than its destinations. *)
Definition station_header (st : station)
    : string * option string * option float * option float
      * list string * list (option string) :=
  (st_uuid st, st_name st, st_lat st, st_lng st, st_bluebike_ids st, st_all_names st).

(** A cumulative table is consistent when every station entry and every
    destination entry sits under its own uuid, and the text of every fastest
    time is the format of the stored number. *)
Definition consistent_table (stations : gmap string station) : Prop :=
  (forall u st, stations !! u = Some st -> st_uuid st = u)
  /\ (forall a b d, pair_lookup stations (a, b) = Some d ->
         dest_uuid d = b
         /\ format_minutes (fastest_time_minutes d) = Some (fastest_time_formatted d)).

(** The fastest time of an entry after a row with time [t] is merged into
    it: lines 465 and 470 read at the level of the time alone. *)
Definition beat (best : option float) (t : float) : option float :=
  match best with
  | None => Some t
  | Some b => if (t <? b)%float then Some t else Some b
  end.

(** The times that a table offers for a pair, in row order. *)
Definition times_of (pair : string * string) (rows : list pair_row) : list float :=
  row_fastest_time_minutes <$> filter (fun row => row_key row = pair) rows.

Section Notions.

Context (py_round : float -> Z -> float)
        (py_str_float : float -> string)
        (md5_uuid : string -> string)
        (math_radians math_sin math_cos math_asin math_sqrt : float -> float)
        (py_pow : float -> float -> float)
        (strftime : Z -> string)
        (read_month_file : string -> option month_file).

#[local] Abbreviation coordinate_string := (coordinate_string py_round py_str_float).
#[local] Abbreviation generate_station_uuid :=
  (generate_station_uuid py_round py_str_float md5_uuid).
#[local] Abbreviation process_month_file :=
  (process_month_file py_round py_str_float md5_uuid).
#[local] Abbreviation calculate_fastest_times :=
  (calculate_fastest_times math_radians math_sin math_cos math_asin math_sqrt py_pow).
#[local] Abbreviation new_destination := (new_destination py_round strftime).

(** What is known of an accumulated registry: every entry sits under the
    key of its own stored coordinates. *)
Definition keyed_by_coordinates (reg : gmap string station_acc) : Prop :=
  forall u e, reg !! u = Some e -> generate_station_uuid (acc_lat e) (acc_lng e) = u.

(** The same of a finished registry. *)
Definition keyed_registry (reg : gmap string station_info) : Prop :=
  forall u info, reg !! u = Some info ->
                 generate_station_uuid (reg_lat info) (reg_lng info) = u.

(** The hash separates the coordinate texts. *)
Definition hash_injective : Prop :=
  forall lat lng lat' lng',
    md5_uuid (coordinate_string lat lng) = md5_uuid (coordinate_string lat' lng') ->
    coordinate_string lat lng = coordinate_string lat' lng'.

(** The month's mapped trips, as [main] gets them (line 675). *)
Definition batch_trips (f : month_file) : list mapped_trip :=
  (process_month_file f).1.

(** The month's pair table, as [main] computes it (line 678). *)
Definition batch_pair_table (f : month_file) : list pair_row :=
  calculate_fastest_times (batch_trips f).

(** The entry of a pair after one row of the month's table is merged, given
    the entry before: lines 465-479 read at the level of one pair. *)
Definition merge_entry (merged_registry : gmap string station_info)
    (existing_dest : option destination) (row : pair_row) : option destination :=
  match existing_dest with
  | None =>
      new_destination merged_registry row <$> format_minutes (row_fastest_time_minutes row)
  | Some d =>
      if (row_fastest_time_minutes row <? fastest_time_minutes d)%float
      then new_destination merged_registry row
             <$> format_minutes (row_fastest_time_minutes row)
      else Some (add_trip_count d row)
  end.

(** The month's file as the loop gets it: found by its prefix, then read. *)
Definition month_file_of (all_files : list string) (month : string) : option month_file :=
  file_of_month all_files month ≫= read_month_file.

(** What an accumulated registry holds, relative to the station rows [seen]
    so far: the entry under a key has the key as its [uuid], the coordinates
    of a row seen with that key, a current name that is among its names, and
    as ids and names exactly those of the rows seen with that key; a key
    that no row seen has, has no entry. *)
Definition registry_reflects (seen : list (string * string * float * float))
    (reg : gmap string station_acc) : Prop :=
  forall u,
    match reg !! u with
    | Some e =>
        acc_uuid e = u
        /\ generate_station_uuid (acc_lat e) (acc_lng e) = u
        /\ (exists id name, (id, name, acc_lat e, acc_lng e) ∈ seen)
        /\ acc_current_name e ∈ acc_all_names e
        /\ (forall id, id ∈ acc_bluebike_ids e <->
              exists name lat lng,
                (id, name, lat, lng) ∈ seen /\ generate_station_uuid lat lng = u)
        /\ (forall name, name ∈ acc_all_names e <->
              exists id lat lng,
                (id, name, lat, lng) ∈ seen /\ generate_station_uuid lat lng = u)
    | None =>
        forall id name lat lng,
          (id, name, lat, lng) ∈ seen -> generate_station_uuid lat lng <> u
    end.

(** Lines 675-683 of [main] for a run of months, from each month's pair
    table and registry on: each is merged into the state that the month
    before left. [None] is an exception raised by a merge. *)
Definition merge_tables (months : list (list pair_row * gmap string station_info))
    (state : gmap string station * gmap string station_info)
    : option (gmap string station * gmap string station_info) :=
  foldl (fun state month =>
           state ≫= fun state =>
             create_station_data py_round strftime month.1 month.2 state.1 state.2)
        (Some state) months.

End Notions.

(** ** Concrete library functions for worked examples

    The statements of the pipeline hold for any implementation of the
    library functions. To run the model on concrete trips, this module
    fixes simple ones: decimal rounding computed on the binary64 value, a
    fixed six-decimal text for floats, the coordinate text itself as its
    own key (an injective stand-in for the hash), low-order polynomial
    approximations of the trigonometric functions, and the number of the
    timestamp as its text. *)
Module Sample.

(** The integer nearest to a float, ties to even. *)
Definition nearest_integer (x : float) : option Z :=
  match Prim2SF x with
  | S754_zero _ => Some 0
  | S754_finite s m e =>
      let q := Z.shiftl (Z.pos m) e in
      let rest := if 0 <=? e then 0 else Z.land (Z.pos m) (Z.ones (- e)) in
      let half := if 0 <=? e then 1 else Z.shiftl 1 (- e - 1) in
      let up := (half <? rest) || ((half =? rest) && Z.odd q) in
      let n := if up then q + 1 else q in
      Some (if s then - n else n)
  | _ => None
  end.

Definition float_of_Z (n : Z) : float :=
  if n <? 0 then (- of_uint63 (of_Z (- n)))%float else of_uint63 (of_Z n).

Definition py_round (x : float) (ndigits : Z) : float :=
  let scale := float_of_Z (10 ^ ndigits) in
  match nearest_integer (x * scale)%float with
  | Some n => (float_of_Z n / scale)%float
  | None => x
  end.

Fixpoint pad_left (width : nat) (s : string) : string :=
  match width with
  | O => s
  | S w => if (String.length s <? width)%nat then pad_left w ("0" ++ s)%string else s
  end.

Definition py_str_float (x : float) : string :=
  match nearest_integer (x * 1000000)%float with
  | Some n =>
      let sign : string := if n <? 0 then "-"%string else EmptyString in
      let whole := py_str_int (Z.abs n / 1000000) in
      let decimals := pad_left 6 (py_str_int (Z.abs n mod 1000000)) in
      (sign ++ whole ++ "." ++ decimals)%string
  | None => "nan"%string
  end.

Definition md5_uuid (s : string) : string := s.

Definition math_radians (x : float) : float := (x * 0x1.1df46a2529d39p-6)%float.
Definition math_sin (x : float) : float := (x - x * x * x / 6)%float.
Definition math_cos (x : float) : float := (1 - x * x / 2 + x * x * x * x / 24)%float.
Definition math_asin (x : float) : float := (x + x * x * x / 6)%float.
Definition math_sqrt (x : float) : float := PrimFloat.sqrt x.
Definition py_pow (x y : float) : float := if (y =? 2)%float then (x * x)%float else x.
Definition strftime (t : Z) : string := py_str_int t.

Abbreviation generate_station_uuid :=
  (generate_station_uuid py_round py_str_float md5_uuid).
Abbreviation create_station_registry :=
  (create_station_registry py_round py_str_float md5_uuid).
Abbreviation add_station_uuids_to_dataframe :=
  (add_station_uuids_to_dataframe py_round py_str_float).
Abbreviation process_month_file :=
  (process_month_file py_round py_str_float md5_uuid).
Abbreviation calculate_fastest_times :=
  (calculate_fastest_times math_radians math_sin math_cos math_asin math_sqrt py_pow).
Abbreviation create_station_data := (create_station_data py_round strftime).
Abbreviation haversine_distance :=
  (haversine_distance math_radians math_sin math_cos math_asin math_sqrt py_pow).
Abbreviation batch_trips := (batch_trips py_round py_str_float md5_uuid).
Abbreviation batch_pair_table :=
  (batch_pair_table py_round py_str_float md5_uuid math_radians math_sin math_cos
     math_asin math_sqrt py_pow).
Abbreviation merge_tables := (merge_tables py_round strftime).

End Sample.

(** ** Example months

    Concrete months, run through the model with the library functions of
    [Sample]. *)
Module Months.

#[local] Set Warnings "-inexact-float".

(** A trip from the dock near (42.36, -71.094) to the dock at
    (42.365, -71.09). *)
Definition ride (id : string) (t : Z) (start_id start_name : string)
    (lat minutes : float) : trip :=
  Trip id None t (Some start_id) (Some start_name) lat (-71.094)
    (Some "B"%string) (Some "B"%string) 42.365 (-71.09) minutes.

(** January: three trips, the fastest in 7.5 minutes. February: two trips
    from the same dock under another raw id and name, with coordinates that
    differ in the seventh decimal, the fastest in 5 minutes. *)
Definition january : month_file :=
  MonthFile false
    [ride "r1" 100 "12" "A" 42.3600001 7.5;
     ride "r2" 200 "12" "A" 42.3600001 8;
     ride "r3" 300 "12" "A" 42.3600001 9].

Definition february : month_file :=
  MonthFile false
    [ride "r4" 400 "012X" "A2" 42.3600004 5;
     ride "r5" 500 "012X" "A2" 42.3600004 6].

(** Both months in one file. *)
Definition winter : month_file :=
  MonthFile false (file_rows january ++ file_rows february).

Definition dock_A : string := "42.360000,-71.094000".
Definition dock_B : string := "42.365000,-71.090000".

Definition january_table : list pair_row := Eval vm_compute in Sample.batch_pair_table january.
Definition february_table : list pair_row := Eval vm_compute in Sample.batch_pair_table february.
Definition winter_table : list pair_row := Eval vm_compute in Sample.batch_pair_table winter.

(** The cumulative table after the months are merged, in the given order,
    into an empty state. *)
Definition merge_months (months : list month_file) : option (gmap string station) :=
  foldl (fun state f =>
           state ≫= fun '(stations, registry) =>
             Sample.create_station_data (Sample.batch_pair_table f)
               (Sample.process_month_file f).2 stations registry)
        (Some (∅, ∅)) months
  ≫= fun state => Some state.1.

Definition attempts_after (months : list month_file) : option Z :=
  merge_months months ≫= fun stations =>
    trip_count <$> pair_lookup stations (dock_A, dock_B).

Definition fastest_after (months : list month_file) : option float :=
  merge_months months ≫= fun stations =>
    fastest_time_minutes <$> pair_lookup stations (dock_A, dock_B).

(** Placeholders for the head of an empty table and a missing entry; the
    tables and entries below are not empty. *)
Definition no_row : pair_row :=
  PairRow EmptyString EmptyString 0 0
    (ride EmptyString 0 EmptyString EmptyString 0 0) 0.

Definition no_entry : destination :=
  Destination EmptyString None 0 EmptyString 0 0 EmptyString EmptyString.

(** The state that February leaves, the entry of the pair in it, and
    January's row. *)
Definition after_february : gmap string station :=
  default ∅ (merge_months [february]).

Definition january_row : pair_row :=
  Eval vm_compute in
    default no_row (head january_table).

Definition february_entry : destination :=
  Eval vm_compute in
    default no_entry
      (pair_lookup after_february (dock_A, dock_B)).

(** A trip with both coordinates at both ends, but no name for its start
    station. *)
Definition nameless : trip :=
  Trip "r6" None 600 (Some "12"%string) None 42.3600001 (-71.094)
    (Some "B"%string) (Some "B"%string) 42.365 (-71.09) 7.5.

Definition winter_row : pair_row :=
  Eval vm_compute in
    default no_row (head winter_table).

Definition winter_registry : gmap string station_info :=
  (Sample.process_month_file winter).2.

(** The example of the specification: two trips between the same docks, of
    7.5 and 5.0 minutes, in one month. *)
Definition two_trips : month_file :=
  MonthFile false [ride "r1" 100 "A" "A" 42.36 7.5; ride "r2" 200 "A" "A" 42.36 5].

Definition two_trips_row : pair_row :=
  Eval vm_compute in
    default no_row (head (Sample.batch_pair_table two_trips)).

(** A trip of half a minute, and January's file with that trip in it. *)
Definition too_short : trip := ride "r0" 50 "12" "A" 42.3600001 0.5.

Definition january_with_short_trip : month_file :=
  MonthFile false (ride "r1" 100 "12" "A" 42.3600001 7.5 :: too_short
                   :: [ride "r2" 200 "12" "A" 42.3600001 8;
                       ride "r3" 300 "12" "A" 42.3600001 9]).

(** The state that January leaves (table and registry), the entry of the
    pair in it, and February's row. *)
Definition january_state : gmap string station * gmap string station_info :=
  default (∅, ∅)
    (Sample.create_station_data january_table (Sample.process_month_file january).2 ∅ ∅).

Definition after_january : gmap string station := january_state.1.

Definition january_entry : destination :=
  Eval vm_compute in
    default no_entry
      (pair_lookup after_january (dock_A, dock_B)).

Definition february_row : pair_row :=
  Eval vm_compute in
    default no_row (head february_table).

(** The two months as [main] hands them to the merge: pair table and
    registry. *)
Definition january_month : list pair_row * gmap string station_info :=
  (january_table, (Sample.process_month_file january).2).

Definition february_month : list pair_row * gmap string station_info :=
  (february_table, (Sample.process_month_file february).2).

(** The state after February is merged into the state that January left. *)
Definition after_january_february : gmap string station * gmap string station_info :=
  default (∅, ∅)
    (Sample.create_station_data february_month.1 february_month.2
       after_january january_state.2).

(** A file with a [rideable_type] column: one classic and one electric
    bike between the two docks. *)
Definition typed_ride (id kind : string) (minutes : float) : trip :=
  Trip id (Some kind) 700 (Some "12"%string) (Some "A"%string) 42.36 (-71.094)
    (Some "B"%string) (Some "B"%string) 42.365 (-71.09) minutes.

Definition march : month_file :=
  MonthFile true [typed_ride "r7" "classic_bike" 7; typed_ride "r8" "electric_bike" 3].

(** The keys of a bucket listing, and the months already in the ledger. *)
Definition listing : list string :=
  ["index.html"; "201501-hubway-tripdata.zip"; "202402-bluebikes-tripdata.zip";
   "202401-bluebikes-tripdata.zip"; "201804-bluebikes-tripdata.zip"]%string.

Definition listed_files : list string :=
  ["202401-bluebikes-tripdata.zip"; "202402-bluebikes-tripdata.zip"]%string.

End Months.

(** * Properties *)

(** ** Binary64 comparisons *)

Module F64.

Abbreviation lt x y := (PrimFloat.ltb x y = true).

Ltac cmp_cases :=
  repeat match goal with
  | |- context [Z.compare ?a ?b] => destruct (Z.compare_spec a b); subst
  | H : context [Z.compare ?a ?b] |- _ => destruct (Z.compare_spec a b); subst
  | |- context [Pos.compare_cont Eq ?a ?b] =>
      change (Pos.compare_cont Eq a b) with (Pos.compare a b)
  | H : context [Pos.compare_cont Eq ?a ?b] |- _ =>
      change (Pos.compare_cont Eq a b) with (Pos.compare a b) in H
  | |- context [Pos.compare ?a ?b] => destruct (Pos.compare_spec a b); subst
  | H : context [Pos.compare ?a ?b] |- _ => destruct (Pos.compare_spec a b); subst
  end; simpl in *; try discriminate; try reflexivity; try lia.

Lemma SFltb_trans x y z :
  SFltb x y = true -> SFltb y z = true -> SFltb x z = true.
Proof.
  unfold SFltb.
  destruct x as [[]|[]| |[] m1 e1], y as [[]|[]| |[] m2 e2], z as [[]|[]| |[] m3 e3];
    simpl; try discriminate; try reflexivity; intros H1 H2; cmp_cases.
Qed.

Lemma SFltb_irrefl x : SFltb x x = false.
Proof.
  unfold SFltb. destruct x as [[]|[]| |[] m e]; simpl; try reflexivity; cmp_cases.
Qed.

(** Two strictly positive values that are not ordered either way are the
    same binary64 datum. *)
Lemma SFltb_positive_eq x y :
  SFltb (S754_zero false) x = true -> SFltb (S754_zero false) y = true ->
  SFltb x y = false -> SFltb y x = false -> x = y.
Proof.
  unfold SFltb.
  destruct x as [[]|[]| |[] m1 e1], y as [[]|[]| |[] m2 e2];
    simpl; try discriminate; try reflexivity; intros _ _ H1 H2; cmp_cases.
Qed.

Lemma ltb_trans x y z : lt x y -> lt y z -> lt x z.
Proof. rewrite !FloatAxioms.ltb_spec. apply SFltb_trans. Qed.

Lemma ltb_irrefl x : PrimFloat.ltb x x = false.
Proof. rewrite FloatAxioms.ltb_spec. apply SFltb_irrefl. Qed.

Lemma ltb_asym x y : lt x y -> PrimFloat.ltb y x = false.
Proof.
  intros H. destruct (PrimFloat.ltb y x) eqn:E; [|reflexivity].
  pose proof (ltb_trans _ _ _ H E) as C. rewrite ltb_irrefl in C. discriminate.
Qed.

Lemma ltb_positive_eq x y :
  lt 0 x -> lt 0 y ->
  PrimFloat.ltb x y = false -> PrimFloat.ltb y x = false -> x = y.
Proof.
  rewrite !FloatAxioms.ltb_spec. intros Hx Hy Hxy Hyx. apply Prim2SF_inj.
  apply SFltb_positive_eq; assumption.
Qed.

Lemma ltb_nan_l x y : is_nan x = true -> PrimFloat.ltb x y = false.
Proof.
  unfold is_nan. rewrite FloatAxioms.eqb_spec, FloatAxioms.ltb_spec. unfold SFeqb, SFltb.
  destruct (Prim2SF x) as [[]|[]| |[] m e]; simpl; try discriminate; try reflexivity;
    intros H; exfalso; revert H; cmp_cases.
Qed.

Lemma SFltb_not_nan x y :
  SFltb x y = true -> x <> S754_nan /\ y <> S754_nan.
Proof.
  unfold SFltb.
  destruct x as [[]|[]| |[] m1 e1], y as [[]|[]| |[] m2 e2]; simpl; try discriminate; done.
Qed.

Lemma SFltb_false_leb x y :
  x <> S754_nan -> y <> S754_nan -> SFltb x y = false -> SFleb y x = true.
Proof.
  unfold SFltb, SFleb.
  destruct x as [[]|[]| |[] m1 e1], y as [[]|[]| |[] m2 e2];
    simpl; try discriminate; try reflexivity; try congruence; intros _ _ H;
    cmp_cases.
Qed.

Lemma ltb_false_leb x y z w :
  lt z x -> lt w y -> PrimFloat.ltb x y = false -> PrimFloat.leb y x = true.
Proof.
  rewrite !FloatAxioms.ltb_spec, FloatAxioms.leb_spec.
  intros Hx Hy. apply SFltb_false_leb.
  - apply (SFltb_not_nan _ _ Hx).
  - apply (SFltb_not_nan _ _ Hy).
Qed.

Lemma above_one_not_negative x : lt 1 x -> not_negative (Prim2SF x).
Proof.
  rewrite FloatAxioms.ltb_spec. unfold SFltb.
  change (Prim2SF 1) with (S754_finite false 4503599627370496 (-52)).
  destruct (Prim2SF x) as [ | | |[] m e]; simpl; done.
Qed.

Lemma above_one_positive x : lt 1 x -> lt 0 x.
Proof. intros H. apply (ltb_trans 0 1 x); [reflexivity | exact H]. Qed.

End F64.

(** ** Lists: duplicates and sorting *)

Section ListFacts.

Context {A : Type} `{EqDecision A}.

Lemma drop_duplicates_from_elem (seen l : list A) (x : A) :
  x ∈ drop_duplicates_from seen l <-> x ∈ l /\ x ∉ seen.
Proof.
  revert seen. induction l as [|y l IH]; intros seen; simpl.
  - split; [intros H; inversion H | intros [H _]; inversion H].
  - destruct (decide (y ∈ seen)) as [Hy|Hy].
    + rewrite IH, elem_of_cons. split; [tauto|].
      intros [[->|Hx] Hn]; [contradiction | tauto].
    + rewrite !elem_of_cons, IH, elem_of_cons.
      destruct (decide (x = y)) as [->|Hne]; tauto.
Qed.

Lemma drop_duplicates_elem (l : list A) (x : A) :
  x ∈ drop_duplicates l <-> x ∈ l.
Proof.
  unfold drop_duplicates. rewrite drop_duplicates_from_elem.
  split; [tauto | intros H; split; [exact H | apply not_elem_of_nil]].
Qed.

Lemma drop_duplicates_from_NoDup (seen l : list A) :
  NoDup (drop_duplicates_from seen l).
Proof.
  revert seen. induction l as [|y l IH]; intros seen; simpl.
  - constructor.
  - destruct (decide (y ∈ seen)); [apply IH|].
    constructor; [|apply IH].
    rewrite drop_duplicates_from_elem, elem_of_cons. tauto.
Qed.

Lemma drop_duplicates_NoDup (l : list A) : NoDup (drop_duplicates l).
Proof. apply drop_duplicates_from_NoDup. Qed.

End ListFacts.

Section SortFacts.

Context {A : Type} (leb : A -> A -> bool).

Lemma insert_by_Permutation (x : A) (l : list A) :
  insert_by leb x l ≡ₚ x :: l.
Proof.
  induction l as [|y l IH]; simpl; [reflexivity|].
  destruct (leb x y); [reflexivity|].
  rewrite IH. apply Permutation_swap.
Qed.

Lemma sort_by_Permutation (l : list A) : sort_by leb l ≡ₚ l.
Proof.
  induction l as [|x l IH]; simpl; [reflexivity|].
  rewrite insert_by_Permutation. by rewrite IH.
Qed.

Lemma sort_by_elem (l : list A) (x : A) : x ∈ sort_by leb l <-> x ∈ l.
Proof. by rewrite sort_by_Permutation. Qed.

Lemma sort_by_NoDup (l : list A) : NoDup l -> NoDup (sort_by leb l).
Proof. intros H. by rewrite sort_by_Permutation. Qed.

Context (leb_total : forall a b, leb a b = true \/ leb b a = true).

Lemma insert_by_Sorted (x : A) (l : list A) :
  Sorted (fun a b => leb a b = true) l ->
  Sorted (fun a b => leb a b = true) (insert_by leb x l).
Proof.
  induction l as [|y l IH]; simpl; intros Hs.
  - repeat constructor.
  - destruct (leb x y) eqn:E.
    + constructor; [exact Hs | constructor; exact E].
    + apply Sorted_inv in Hs as [Hs Hhd]. constructor; [apply IH, Hs|].
      destruct l as [|z l]; simpl.
      * constructor. destruct (leb_total x y) as [C|C]; [congruence | exact C].
      * destruct (leb x z).
        -- constructor. destruct (leb_total x y) as [C|C]; [congruence | exact C].
        -- constructor. by inversion Hhd.
Qed.

Lemma sort_by_Sorted (l : list A) : Sorted (fun a b => leb a b = true) (sort_by leb l).
Proof.
  induction l as [|x l IH]; simpl; [constructor | by apply insert_by_Sorted].
Qed.

End SortFacts.

(** ** The duration format *)

Lemma py_int_floor (x : float) :
  not_negative (Prim2SF x) -> py_int x = float_floor x.
Proof.
  unfold py_int, float_floor. destruct (Prim2SF x) as [ | | |[] m e]; simpl; try done.
Qed.

Lemma binary_round_aux_not_negative mx ex lx :
  not_negative (binary_round_aux prec emax false mx ex lx).
Proof.
  unfold binary_round_aux.
  destruct (shr_fexp prec emax mx ex lx) as [mrs' e'].
  destruct (shr_fexp prec emax _ e' loc_Exact) as [mrs'' e''].
  destruct (shr_m mrs''); [done| |done].
  by destruct (e'' <=? emax - prec).
Qed.

Lemma binary_round_not_negative m e :
  not_negative (binary_round prec emax false m e).
Proof.
  unfold binary_round. destruct (shl_align _ _ _) as [mz ez].
  apply binary_round_aux_not_negative.
Qed.

Lemma SFldexp_not_negative x e :
  not_negative x -> not_negative (SFldexp prec emax x e).
Proof.
  destruct x as [ | | |[] m ex]; simpl; try done.
  intros _. apply binary_round_not_negative.
Qed.

Lemma of_uint63_not_negative n : not_negative (Prim2SF (of_uint63 n)).
Proof.
  rewrite FloatAxioms.of_uint63_spec. pose proof (to_Z_bounded n) as Hn.
  unfold binary_normalize. destruct (to_Z n); [done| |lia].
  apply binary_round_not_negative.
Qed.

Lemma SFmul_not_negative x m e :
  not_negative x -> not_negative (SFmul prec emax x (S754_finite false m e)).
Proof.
  destruct x as [ | | |[] mx ex]; simpl; try done.
  intros _. apply binary_round_aux_not_negative.
Qed.

Lemma py_mod1_not_negative (x : float) :
  not_negative (Prim2SF x) -> not_negative (Prim2SF (py_mod1 x)).
Proof.
  unfold py_mod1. destruct (Prim2SF x) as [ | | |[] m e]; simpl; try done.
  intros _. unfold Z.ldexp. rewrite FloatAxioms.ldshiftexp_spec.
  apply SFldexp_not_negative, of_uint63_not_negative.
Qed.

Lemma format_minutes_spec (m : float) :
  not_negative (Prim2SF m) -> format_minutes m = spec_format_minutes m.
Proof.
  intros Hm. unfold format_minutes, spec_format_minutes.
  rewrite (py_int_floor m Hm). rewrite (py_int_floor (py_mod1 m * 60)%float); [done|].
  rewrite FloatAxioms.mul_spec. change (Prim2SF 60) with (S754_finite false 8444249301319680 (-47)). apply SFmul_not_negative, py_mod1_not_negative, Hm.
Qed.

(** ** Magnitude of rounded results

    The number of binary digits of a mantissa plus its exponent bounds the
    magnitude of a float. Rounding raises that bound by at most one, so the
    products formed by the duration format stay finite. *)

Module Magnitude.

Lemma digits2_size (p : positive) : digits2_pos p = Pos.size p.
Proof. induction p as [p IH|p IH|]; simpl; by rewrite ?IH. Qed.

Lemma digits2_gt (p : positive) : Z.pos p < 2 ^ Z.pos (digits2_pos p).
Proof.
  rewrite digits2_size. pose proof (Pos.size_gt p) as H.
  apply Pos2Z.pos_lt_pos in H. by rewrite Pos2Z.inj_pow in H.
Qed.

Lemma digits2_le (p : positive) : 2 ^ Z.pos (digits2_pos p) <= 2 * Z.pos p.
Proof.
  rewrite digits2_size. pose proof (Pos.size_le p) as H.
  apply Pos2Z.pos_le_pos in H. by rewrite Pos2Z.inj_pow in H.
Qed.

Lemma Zdigits2_bound (m K : Z) :
  0 <= m -> 0 <= K -> m < 2 ^ K -> Zdigits2 m <= K.
Proof.
  intros Hm HK Hlt. destruct m as [|p|p]; simpl; [done| |lia].
  destruct (Z_le_gt_dec (Z.pos (digits2_pos p)) K) as [|Hgt]; [done|].
  pose proof (digits2_le p) as Hle.
  assert (2 ^ (K + 1) <= 2 ^ Z.pos (digits2_pos p)) as Hpow
    by (apply Z.pow_le_mono_r; lia).
  rewrite Z.pow_add_r in Hpow by lia. lia.
Qed.

Lemma Zdigits2_gt (m : Z) : 0 <= m -> m < 2 ^ Zdigits2 m.
Proof.
  intros Hm. destruct m as [|p|p]; simpl; [done| |lia]. apply digits2_gt.
Qed.

Lemma Zdigits2_nonneg (m : Z) : 0 <= Zdigits2 m.
Proof. destruct m; simpl; lia. Qed.

Lemma shr_1_div2 (mrs : shr_record) :
  0 <= shr_m mrs -> shr_m (shr_1 mrs) = shr_m mrs / 2.
Proof.
  destruct mrs as [m r s]. simpl. intros Hm.
  destruct m as [|[p|p|]|p]; try lia; try reflexivity.
  - change (Z.pos p = Z.pos p~1 / 2). apply (Z.div_unique _ 2 _ 1); lia.
  - change (Z.pos p = Z.pos p~0 / 2). apply (Z.div_unique _ 2 _ 0); lia.
Qed.

Lemma iter_pos_iter {A : Type} (f : A -> A) (p : positive) (x : A) :
  SpecFloat.iter_pos f p x = Pos.iter f x p.
Proof.
  revert x. induction p as [p IH|p IH|]; intros x; simpl; [|by rewrite !IH|done].
  by rewrite !IH, <- !Pos.iter_swap.
Qed.

Lemma shr_iter_div (p : positive) (mrs : shr_record) :
  0 <= shr_m mrs ->
  shr_m (SpecFloat.iter_pos shr_1 p mrs) = shr_m mrs / 2 ^ Z.pos p.
Proof.
  intros Hm. rewrite iter_pos_iter. induction p as [|p IH] using Pos.peano_ind.
  - simpl. rewrite shr_1_div2 by done. done.
  - rewrite Pos.iter_succ, shr_1_div2.
    + rewrite IH, Pos2Z.inj_succ, Z.pow_succ_r by lia.
      rewrite Z.div_div by lia. f_equal. lia.
    + rewrite IH. apply Z.div_pos; lia.
Qed.

(** The exponent function of binary64. *)
Lemma fexp_eq (e : Z) : fexp prec emax e = Z.max (e - 53) (-1074).
Proof. reflexivity. Qed.

Lemma shr_fexp_bound (m e B : Z) (l : location) :
  0 <= m -> Zdigits2 m + e <= B -> -1074 <= B ->
  0 <= shr_m (shr_fexp prec emax m e l).1
  /\ Zdigits2 (shr_m (shr_fexp prec emax m e l).1) + (shr_fexp prec emax m e l).2 <= B.
Proof.
  intros Hm HB Hmin. unfold shr_fexp, shr. rewrite fexp_eq.
  assert (shr_m (shr_record_of_loc m l) = m) as Hrec by (by destruct l as [|[]]).
  destruct (Z.max (Zdigits2 m + e - 53) (-1074) - e) as [|p|p] eqn:En; simpl;
    rewrite ?Hrec; try done.
  rewrite shr_iter_div by (by rewrite Hrec). rewrite Hrec.
  assert (0 <= m / 2 ^ Z.pos p) as Hq by (apply Z.div_pos; lia).
  split; [done|].
  pose proof (Zdigits2_gt m Hm) as Hlt. pose proof (Zdigits2_nonneg m) as Hd.
  assert (Zdigits2 (m / 2 ^ Z.pos p) <= Z.max 0 (Zdigits2 m - Z.pos p)) as Hdig.
  { apply Zdigits2_bound; [done | lia |].
    destruct (Z_le_gt_dec (Z.pos p) (Zdigits2 m)) as [Hle|Hgt].
    - rewrite Z.max_r by lia. apply Z.div_lt_upper_bound; [lia|].
      rewrite <- Z.pow_add_r by lia. by replace (Z.pos p + (Zdigits2 m - Z.pos p))
        with (Zdigits2 m) by lia.
    - rewrite Z.max_l by lia. rewrite Z.div_small; [done|]. split; [done|].
      eapply Z.lt_le_trans; [exact Hlt|]. apply Z.pow_le_mono_r; lia. }
  lia.
Qed.

Lemma round_nearest_even_bound (m : Z) (l : location) :
  0 <= m ->
  0 <= round_nearest_even m l
  /\ Zdigits2 (round_nearest_even m l) <= Zdigits2 m + 1.
Proof.
  intros Hm.
  assert (round_nearest_even m l = m \/ round_nearest_even m l = m + 1) as [->| ->].
  { destruct l as [|[]]; simpl; auto. destruct (Z.even m); auto. }
  - lia.
  - split; [lia|]. pose proof (Zdigits2_gt m Hm) as Hlt.
    pose proof (Zdigits2_nonneg m) as Hd.
    apply Zdigits2_bound; [lia | lia |]. rewrite Z.pow_add_r by lia. lia.
Qed.

Lemma below_mono (B B' : Z) (x : spec_float) : B <= B' -> below B x -> below B' x.
Proof. destruct x; simpl; try done. lia. Qed.

Lemma binary_round_aux_below (s : bool) (mx ex B : Z) (l : location) :
  0 <= mx -> Zdigits2 mx + ex <= B -> -1074 <= B -> B <= 971 ->
  below (B + 1) (binary_round_aux prec emax s mx ex l).
Proof.
  intros Hm HB Hmin Hmax. unfold binary_round_aux.
  destruct (shr_fexp_bound mx ex B l Hm HB Hmin) as [Hm1 HB1].
  destruct (shr_fexp prec emax mx ex l) as [mrs1 e1]. simpl in Hm1, HB1.
  destruct (round_nearest_even_bound (shr_m mrs1) (loc_of_shr_record mrs1) Hm1)
    as [Hr Hrd].
  destruct (shr_fexp_bound (round_nearest_even (shr_m mrs1) (loc_of_shr_record mrs1))
              e1 (B + 1) loc_Exact Hr) as [Hm2 HB2]; [lia | lia |].
  destruct (shr_fexp prec emax _ e1 loc_Exact) as [mrs2 e2]. simpl in Hm2, HB2.
  destruct (shr_m mrs2) as [|q|q] eqn:Eq; simpl in *; [done| |lia].
  change (emax - prec) with 971.
  destruct (e2 <=? 971) eqn:Ee; simpl; [done|]. apply Z.leb_gt in Ee. lia.
Qed.

Lemma digits2_shift (m d : positive) :
  Z.pos (digits2_pos (Pos.iter xO m d)) = Z.pos (digits2_pos m) + Z.pos d.
Proof.
  induction d as [|d IH] using Pos.peano_ind; simpl; [lia|].
  rewrite Pos.iter_succ. simpl. lia.
Qed.

Lemma binary_round_below (s : bool) (m : positive) (e B : Z) :
  Z.pos (digits2_pos m) + e <= B -> -1074 <= B -> B <= 971 ->
  below (B + 1) (binary_round prec emax s m e).
Proof.
  intros HB Hmin Hmax. unfold binary_round, shl_align.
  destruct (fexp prec emax (Z.pos (digits2_pos m) + e) - e) as [|d|d] eqn:Ed;
    try (apply binary_round_aux_below; simpl; lia).
  apply binary_round_aux_below; try lia. simpl. rewrite digits2_shift. lia.
Qed.

Lemma mul_digits (a b : positive) :
  Z.pos (digits2_pos (a * b)) <= Z.pos (digits2_pos a) + Z.pos (digits2_pos b).
Proof.
  apply (Zdigits2_bound (Z.pos (a * b))); [lia | lia |].
  rewrite Pos2Z.inj_mul, Z.pow_add_r by lia.
  pose proof (digits2_gt a). pose proof (digits2_gt b). nia.
Qed.

Lemma below_py_int (x : float) (B : Z) : below B (Prim2SF x) -> is_Some (py_int x).
Proof.
  unfold py_int. destruct (Prim2SF x); simpl; try done; intros _; by eexists.
Qed.

Lemma of_uint63_below (r K : Z) :
  0 <= r < 2 ^ K -> 0 <= K <= 62 ->
  below (K + 1) (Prim2SF (of_uint63 (of_Z r))).
Proof.
  intros [Hr Hlt] HK. rewrite FloatAxioms.of_uint63_spec, of_Z_spec.
  rewrite Z.mod_small.
  - unfold binary_normalize. destruct r as [|p|p]; [done| |lia].
    apply binary_round_below; try lia.
    pose proof (Zdigits2_bound (Z.pos p) K). simpl in *. lia.
  - split; [done|]. eapply Z.lt_le_trans; [exact Hlt|].
    change wB with (2 ^ 63). apply Z.pow_le_mono_r; lia.
Qed.

Lemma ldexp_below (x : float) (e B : Z) :
  below B (Prim2SF x) -> -1074 <= e <= 0 -> -1074 <= B + e -> B + e <= 971 ->
  below (B + e + 1) (Prim2SF (Z.ldexp x e)).
Proof.
  intros Hx He Hmin Hmax. unfold Z.ldexp. rewrite FloatAxioms.ldshiftexp_spec, of_Z_spec.
  change (emax - FloatOps.emin) with 2098. change (FloatOps.emin - emax - 1) with (-2099).
  change FloatOps.shift with 2101.
  rewrite Z.min_l, Z.max_l by lia.
  rewrite Z.mod_small by (change wB with 9223372036854775808; lia).
  replace (e + 2101 - 2101) with e by lia.
  destruct (Prim2SF x) as [ | | |s m ex]; simpl in *; try done.
  apply binary_round_below; lia.
Qed.

Lemma mul_60_below (x : float) (B : Z) :
  below B (Prim2SF x) -> -1080 <= B -> B <= 965 ->
  below (B + 7) (Prim2SF (x * 60)%float).
Proof.
  intros Hx Hmin Hmax. rewrite FloatAxioms.mul_spec.
  change (Prim2SF 60) with (S754_finite false 8444249301319680 (-47)).
  destruct (Prim2SF x) as [ | | |s m ex]; simpl in *; try done.
  replace (B + 7) with (B + 6 + 1) by lia.
  apply binary_round_aux_below; try lia. simpl.
  pose proof (mul_digits m 8444249301319680) as Hd.
  change (Z.pos (digits2_pos 8444249301319680)) with 53 in Hd. lia.
Qed.

(** A value strictly between 1 and 1440 is a positive finite float with an
    exponent of at least -52. *)
Lemma valid_minutes_finite (m : float) :
  F64.lt 1 m -> F64.lt m 1440 ->
  exists mm e, Prim2SF m = S754_finite false mm e /\ -52 <= e.
Proof.
  rewrite !FloatAxioms.ltb_spec. unfold SFltb.
  change (Prim2SF 1) with (S754_finite false 4503599627370496 (-52)).
  change (Prim2SF 1440) with (S754_finite false 6333186975989760 (-42)).
  destruct (Prim2SF m) as [[]|[]| |[] mm e];
    lazy beta iota delta [SFcompare]; try discriminate.
  intros H1 _. exists mm, e. split; [done|].
  destruct (Z.compare_spec (-52) e); first [lia | discriminate].
Qed.

Lemma py_mod1_below (m : float) :
  F64.lt 1 m -> F64.lt m 1440 -> below 2 (Prim2SF (py_mod1 m)).
Proof.
  intros H1 H2. destruct (valid_minutes_finite m H1 H2) as (mm & e & Hm & He).
  unfold py_mod1. rewrite Hm. simpl.
  destruct (0 <=? e) eqn:E.
  - unfold Z.ldexp. rewrite FloatAxioms.ldshiftexp_spec. done.
  - apply Z.leb_gt in E. rewrite Z.land_ones by lia.
    apply (below_mono (- e + 1 + e + 1)); [lia|].
    apply ldexp_below; try lia.
    apply of_uint63_below; [|lia]. apply Z.mod_pos_bound. apply Z.pow_pos_nonneg; lia.
Qed.

(** The time of a valid trip can always be formatted: [int] does not
    raise. *)
Lemma format_minutes_defined (m : float) :
  F64.lt 1 m -> F64.lt m 1440 -> is_Some (format_minutes m).
Proof.
  intros H1 H2. unfold format_minutes.
  destruct (valid_minutes_finite m H1 H2) as (mm & e & Hm & He).
  assert (is_Some (py_int m)) as [whole ->].
  { unfold py_int. rewrite Hm. by eexists. }
  assert (is_Some (py_int (py_mod1 m * 60)%float)) as [secs ->].
  { apply (below_py_int _ 9). apply (mul_60_below _ 2); [|lia|lia].
    by apply py_mod1_below. }
  simpl. by eexists.
Qed.

End Magnitude.

(** ** The merge into the cumulative table *)

Section MergeFacts.

Context (py_round : float -> Z -> float) (strftime : Z -> string).

#[local] Abbreviation new_destination := (new_destination py_round strftime).
#[local] Abbreviation merge_row := (merge_row py_round strftime).
#[local] Abbreviation merge_rows := (merge_rows py_round strftime).
#[local] Abbreviation create_station_data := (create_station_data py_round strftime).
#[local] Abbreviation merge_entry := (merge_entry py_round strftime).

Lemma new_station_destinations (merged_registry : gmap string station_info)
    (row : pair_row) :
  destinations (new_station merged_registry row) = ∅.
Proof. unfold new_station. by destruct (merged_registry !! _). Qed.

Lemma default_station_lookup (merged_registry : gmap string station_info)
    (stations : gmap string station) (row : pair_row) (e : string) :
  destinations (default (new_station merged_registry row)
                  (stations !! row_start_station_uuid row)) !! e
  = pair_lookup stations (row_start_station_uuid row, e).
Proof.
  unfold pair_lookup. simpl. destruct (stations !! row_start_station_uuid row); simpl; [done|].
  by rewrite new_station_destinations, lookup_empty.
Qed.

Lemma merge_row_entry (merged_registry : gmap string station_info)
    (stations : gmap string station) (row : pair_row) :
  merge_row merged_registry stations row
  = (fun d => <[row_start_station_uuid row :=
                  set_destination
                    (default (new_station merged_registry row)
                       (stations !! row_start_station_uuid row))
                    (row_end_station_uuid row) d]> stations)
    <$> merge_entry merged_registry (pair_lookup stations (row_key row)) row.
Proof.
  unfold merge_row, merge_entry, row_key.
  rewrite default_station_lookup.
  destruct (pair_lookup stations _) as [d|]; simpl.
  - destruct (row_fastest_time_minutes row <? fastest_time_minutes d)%float; [|done].
    by destruct (format_minutes _).
  - by destruct (format_minutes _).
Qed.

Lemma merge_row_lookup (merged_registry : gmap string station_info)
    (stations stations' : gmap string station) (row : pair_row) (k : string * string) :
  merge_row merged_registry stations row = Some stations' ->
  pair_lookup stations' k
  = if decide (k = row_key row)
    then merge_entry merged_registry (pair_lookup stations (row_key row)) row
    else pair_lookup stations k.
Proof.
  rewrite merge_row_entry.
  destruct (merge_entry merged_registry _ row) as [d|] eqn:E; simpl; [|done].
  intros [= <-]. destruct k as [s e]. unfold pair_lookup at 1. simpl.
  destruct (decide (s = row_start_station_uuid row)) as [->|Hs].
  - rewrite lookup_insert_eq. simpl.
    destruct (decide (e = row_end_station_uuid row)) as [->|He].
    + rewrite lookup_insert_eq. by rewrite decide_True.
    + rewrite lookup_insert_ne by done. rewrite default_station_lookup.
      rewrite decide_False; [done|]. unfold row_key. congruence.
  - rewrite lookup_insert_ne by done. rewrite decide_False; [done|].
    unfold row_key. congruence.
Qed.

Lemma merge_rows_other (merged_registry : gmap string station_info)
    (rows : list pair_row) (stations stations' : gmap string station)
    (k : string * string) :
  merge_rows merged_registry rows stations = Some stations' ->
  k ∉ row_key <$> rows ->
  pair_lookup stations' k = pair_lookup stations k.
Proof.
  revert stations. induction rows as [|row rows IH]; intros stations; simpl.
  - by intros [= <-].
  - destruct (merge_row merged_registry stations row) as [st1|] eqn:E; simpl; [|done].
    intros Hrows Hk. apply not_elem_of_cons in Hk as [Hne Hk].
    rewrite (IH _ Hrows Hk), (merge_row_lookup _ _ _ _ _ E). by rewrite decide_False.
Qed.

(** With one row per pair, the entry of a pair after the whole loop is the
    entry its own row produces. *)
Lemma merge_rows_row (merged_registry : gmap string station_info)
    (rows : list pair_row) (stations stations' : gmap string station) (row : pair_row) :
  NoDup (row_key <$> rows) -> row ∈ rows ->
  merge_rows merged_registry rows stations = Some stations' ->
  pair_lookup stations' (row_key row)
  = merge_entry merged_registry (pair_lookup stations (row_key row)) row.
Proof.
  revert stations. induction rows as [|r rows IH]; intros stations Hnd Hin; simpl.
  - inversion Hin.
  - destruct (merge_row merged_registry stations r) as [st1|] eqn:E; simpl; [|done].
    intros Hrows. rewrite fmap_cons in Hnd. apply NoDup_cons in Hnd as [Hr Hnd].
    apply elem_of_cons in Hin as [->|Hin].
    + rewrite (merge_rows_other _ _ _ _ _ Hrows Hr), (merge_row_lookup _ _ _ _ _ E).
      by rewrite decide_True.
    + rewrite (IH _ Hnd Hin Hrows), (merge_row_lookup _ _ _ _ _ E).
      rewrite decide_False; [done|]. intros Heq. apply Hr. rewrite <- Heq.
      by apply list_elem_of_fmap_2.
Qed.

(** The loop completes when the time of every row can be formatted. *)
Lemma merge_rows_defined (merged_registry : gmap string station_info)
    (rows : list pair_row) (stations : gmap string station) :
  (forall r, r ∈ rows -> is_Some (format_minutes (row_fastest_time_minutes r))) ->
  is_Some (merge_rows merged_registry rows stations).
Proof.
  revert stations. induction rows as [|row rows IH]; intros stations Hfmt; simpl.
  - by eexists.
  - destruct (Hfmt row) as [s Hs]; [by left|].
    assert (is_Some (merge_row merged_registry stations row)) as [st1 Hst1].
    { rewrite merge_row_entry. unfold merge_entry.
      destruct (pair_lookup stations (row_key row)) as [d|]; simpl.
      - destruct (_ <? _)%float; rewrite ?Hs; by eexists.
      - rewrite Hs. by eexists. }
    rewrite Hst1. simpl. apply IH. intros r Hr. apply Hfmt. by right.
Qed.

(** C4. When a month's pair table (one row per pair, every time
    formattable) is merged and a pair of the table already has an entry
    whose fastest time the month's time does not beat, the merge completes
    and the entry of the pair keeps its fastest time, its evidence (ride
    and date) and every other field, while its count grows by the month's
    count for the pair. *)
Theorem slower_batch_keeps_record (fastest_times_df : list pair_row)
    (station_registry existing_registry : gmap string station_info)
    (existing_stations : gmap string station)
    (row : pair_row) (existing_dest : destination) :
  NoDup (row_key <$> fastest_times_df) ->
  (forall r, r ∈ fastest_times_df ->
             is_Some (format_minutes (row_fastest_time_minutes r))) ->
  row ∈ fastest_times_df ->
  pair_lookup existing_stations (row_key row) = Some existing_dest ->
  (row_fastest_time_minutes row <? fastest_time_minutes existing_dest)%float = false ->
  exists stations merged_registry d,
    create_station_data fastest_times_df station_registry
      existing_stations existing_registry = Some (stations, merged_registry)
    /\ pair_lookup stations (row_key row) = Some d
    /\ fastest_time_minutes d = fastest_time_minutes existing_dest
    /\ dest_ride_id d = dest_ride_id existing_dest
    /\ date d = date existing_dest
    /\ fastest_time_formatted d = fastest_time_formatted existing_dest
    /\ distance_km d = distance_km existing_dest
    /\ dest_uuid d = dest_uuid existing_dest
    /\ dest_name d = dest_name existing_dest
    /\ trip_count d = trip_count existing_dest + row_trip_count row.
Proof.
  intros Hnd Hfmt Hin Hold Hslow. unfold create_station_data.
  destruct (merge_rows_defined (merge_registry station_registry existing_registry)
              fastest_times_df existing_stations Hfmt) as [stations Hst].
  exists stations, (merge_registry station_registry existing_registry),
    (add_trip_count existing_dest row).
  rewrite Hst. simpl. split; [done|]. split; [|done].
  rewrite (merge_rows_row _ _ _ _ _ Hnd Hin Hst), Hold. unfold merge_entry.
  by rewrite Hslow.
Qed.

(** X20. What the replace branch does: when the month's time beats the entry's,
    the new entry carries the month's time, evidence and count; the count of
    the replaced entry is not carried over. *)
Lemma faster_batch_replaces_record (fastest_times_df : list pair_row)
    (station_registry existing_registry : gmap string station_info)
    (existing_stations : gmap string station)
    (row : pair_row) (existing_dest : destination) :
  NoDup (row_key <$> fastest_times_df) ->
  (forall r, r ∈ fastest_times_df ->
             is_Some (format_minutes (row_fastest_time_minutes r))) ->
  row ∈ fastest_times_df ->
  pair_lookup existing_stations (row_key row) = Some existing_dest ->
  (row_fastest_time_minutes row <? fastest_time_minutes existing_dest)%float = true ->
  exists stations merged_registry d,
    create_station_data fastest_times_df station_registry
      existing_stations existing_registry = Some (stations, merged_registry)
    /\ pair_lookup stations (row_key row) = Some d
    /\ fastest_time_minutes d = row_fastest_time_minutes row
    /\ dest_ride_id d = ride_id (row_fastest_ride row)
    /\ date d = strftime (started_at (row_fastest_ride row))
    /\ trip_count d = row_trip_count row.
Proof.
  intros Hnd Hfmt Hin Hold Hfast. unfold create_station_data.
  destruct (merge_rows_defined (merge_registry station_registry existing_registry)
              fastest_times_df existing_stations Hfmt) as [stations Hst].
  destruct (Hfmt row Hin) as [formatted Hf].
  exists stations, (merge_registry station_registry existing_registry),
    (new_destination (merge_registry station_registry existing_registry) row formatted).
  rewrite Hst. simpl. split; [done|]. split; [|done].
  rewrite (merge_rows_row _ _ _ _ _ Hnd Hin Hst), Hold. unfold merge_entry.
  by rewrite Hfast, Hf.
Qed.

(** The fastest time after two merges does not depend on their order: with
    times above one minute, both orders leave the smaller of the two. *)
Lemma merge_entry_fastest_commutes (reg1 reg2 : gmap string station_info)
    (row1 row2 : pair_row) (d12 d21 : destination) :
  F64.lt 1 (row_fastest_time_minutes row1) ->
  F64.lt 1 (row_fastest_time_minutes row2) ->
  merge_entry reg1 None row1 ≫= (fun d => merge_entry reg2 (Some d) row2) = Some d12 ->
  merge_entry reg2 None row2 ≫= (fun d => merge_entry reg1 (Some d) row1) = Some d21 ->
  fastest_time_minutes d12 = fastest_time_minutes d21
  /\ fastest_time_minutes d12
     = float_min (row_fastest_time_minutes row1) (row_fastest_time_minutes row2).
Proof.
  intros H1 H2. unfold merge_entry, float_min. simpl.
  destruct (format_minutes (row_fastest_time_minutes row1)) as [f1|]; simpl; [|done].
  destruct (format_minutes (row_fastest_time_minutes row2)) as [f2|]; simpl; [|done].
  destruct (row_fastest_time_minutes row2 <? row_fastest_time_minutes row1)%float eqn:E21;
    destruct (row_fastest_time_minutes row1 <? row_fastest_time_minutes row2)%float eqn:E12;
    simpl; intros [= <-] [= <-]; simpl; try done.
  - apply F64.ltb_asym in E21. congruence.
  - split; [|done]. apply F64.ltb_positive_eq; auto using F64.above_one_positive.
Qed.

End MergeFacts.

(** ** Identities, for any implementation of the library functions *)

Section Facts.

Context (py_round : float -> Z -> float)
        (py_str_float : float -> string)
        (md5_uuid : string -> string).

#[local] Abbreviation coordinate_string := (coordinate_string py_round py_str_float).
#[local] Abbreviation generate_station_uuid :=
  (generate_station_uuid py_round py_str_float md5_uuid).
#[local] Abbreviation registry_add := (registry_add py_round py_str_float md5_uuid).
#[local] Abbreviation registry_acc := (registry_acc py_round py_str_float md5_uuid).
#[local] Abbreviation create_station_registry :=
  (create_station_registry py_round py_str_float md5_uuid).
#[local] Abbreviation coord_to_uuid := (coord_to_uuid py_round py_str_float).
#[local] Abbreviation map_trip := (map_trip py_round py_str_float).
#[local] Abbreviation add_station_uuids_to_dataframe :=
  (add_station_uuids_to_dataframe py_round py_str_float).
#[local] Abbreviation process_month_file :=
  (process_month_file py_round py_str_float md5_uuid).
#[local] Abbreviation keyed_by_coordinates :=
  (keyed_by_coordinates py_round py_str_float md5_uuid).
#[local] Abbreviation keyed_registry := (keyed_registry py_round py_str_float md5_uuid).
#[local] Abbreviation hash_injective := (hash_injective py_round py_str_float md5_uuid).
#[local] Abbreviation batch_trips := (batch_trips py_round py_str_float md5_uuid).

(** *** Identity keys *)

(** C6. The key of a coordinate pair is the key of its rounded pair, given
    that the builtin [round] leaves an already rounded value unchanged at
    the two coordinates; and the key depends on the coordinates through
    their rounded values only: any pair with the same rounded values has the
    same key. The key is a function of its arguments, with no other input. *)
Theorem identity_key_of_rounded (lat lng : float) :
  py_round (py_round lat 6) 6 = py_round lat 6 ->
  py_round (py_round lng 6) 6 = py_round lng 6 ->
  generate_station_uuid lat lng
  = generate_station_uuid (py_round lat 6) (py_round lng 6)
  /\ forall lat' lng',
       py_round lat' 6 = py_round lat 6 ->
       py_round lng' 6 = py_round lng 6 ->
       generate_station_uuid lat' lng' = generate_station_uuid lat lng.
Proof.
  intros Hlat Hlng. split.
  - unfold generate_station_uuid, coordinate_string.
    rewrite Hlat, Hlng. reflexivity.
  - intros lat' lng' Hlat' Hlng'.
    unfold generate_station_uuid, coordinate_string.
    rewrite Hlat', Hlng'. reflexivity.
Qed.

(** *** The registry *)

Lemma registry_add_lookup (reg : gmap string station_acc)
    (id name : string) (lat lng : float) :
  exists e, registry_add reg (id, name, lat, lng) !! generate_station_uuid lat lng = Some e
            /\ id ∈ acc_bluebike_ids e.
Proof.
  unfold registry_add. eexists. split; [apply lookup_insert_eq|].
  simpl. set_solver.
Qed.

Lemma registry_add_grows (reg : gmap string station_acc)
    (row : string * string * float * float) (u : string) (e : station_acc) :
  reg !! u = Some e ->
  exists e', registry_add reg row !! u = Some e'
             /\ acc_bluebike_ids e ⊆ acc_bluebike_ids e'
             /\ acc_lat e' = acc_lat e /\ acc_lng e' = acc_lng e.
Proof.
  intros Hu. destruct row as [[[id name] lat] lng]. unfold registry_add.
  destruct (decide (generate_station_uuid lat lng = u)) as [Heq|Hne].
  - rewrite Heq, Hu. eexists. split; [apply lookup_insert_eq|]. simpl.
    split; [set_solver | done].
  - exists e. rewrite lookup_insert_ne by exact Hne. done.
Qed.

Lemma registry_add_keyed (reg : gmap string station_acc)
    (row : string * string * float * float) :
  keyed_by_coordinates reg -> keyed_by_coordinates (registry_add reg row).
Proof.
  intros Hk u e. destruct row as [[[id name] lat] lng]. unfold registry_add.
  destruct (decide (generate_station_uuid lat lng = u)) as [Heq|Hne].
  - rewrite Heq, lookup_insert_eq. intros [= <-]. simpl.
    destruct (reg !! u) as [e0|] eqn:E; simpl; [by apply Hk | exact Heq].
  - rewrite lookup_insert_ne by exact Hne. apply Hk.
Qed.

Lemma registry_fold_grows (rows : list (string * string * float * float))
    (reg : gmap string station_acc) (u : string) (e : station_acc) :
  reg !! u = Some e ->
  exists e', fold_left registry_add rows reg !! u = Some e'
             /\ acc_bluebike_ids e ⊆ acc_bluebike_ids e'
             /\ acc_lat e' = acc_lat e /\ acc_lng e' = acc_lng e.
Proof.
  revert reg e. induction rows as [|row rows IH]; intros reg e Hu; simpl.
  - exists e. done.
  - destruct (registry_add_grows reg row u e Hu) as (e1 & H1 & Hsub & Hlat & Hlng).
    destruct (IH _ _ H1) as (e2 & H2 & Hsub2 & Hlat2 & Hlng2).
    exists e2. split; [exact H2|]. split; [set_solver | split; congruence].
Qed.

Lemma registry_fold_keyed (rows : list (string * string * float * float))
    (reg : gmap string station_acc) :
  keyed_by_coordinates reg -> keyed_by_coordinates (fold_left registry_add rows reg).
Proof.
  revert reg. induction rows as [|row rows IH]; intros reg Hk; simpl; [exact Hk|].
  apply IH, registry_add_keyed, Hk.
Qed.

Lemma registry_fold_records (rows : list (string * string * float * float))
    (reg : gmap string station_acc) (id name : string) (lat lng : float) :
  (id, name, lat, lng) ∈ rows ->
  exists e, fold_left registry_add rows reg !! generate_station_uuid lat lng = Some e
            /\ id ∈ acc_bluebike_ids e.
Proof.
  revert reg. induction rows as [|row rows IH]; intros reg Hin; simpl.
  - inversion Hin.
  - apply elem_of_cons in Hin as [<-|Hin]; [|by apply IH].
    destruct (registry_add_lookup reg id name lat lng) as (e1 & H1 & Hid).
    destruct (registry_fold_grows rows _ _ _ H1) as (e2 & H2 & Hsub & _).
    exists e2. split; [exact H2 | by apply Hsub].
Qed.

Lemma dropna_elem (rows : list station_row) (id name : string) (lat lng : float) :
  (Some id, Some name, lat, lng) ∈ rows ->
  notna lat = true -> notna lng = true ->
  (id, name, lat, lng) ∈ dropna (drop_duplicates rows).
Proof.
  intros Hin Hlat Hlng. unfold dropna. apply list_elem_of_omap.
  exists (Some id, Some name, lat, lng). split; [by apply drop_duplicates_elem|].
  simpl. by rewrite Hlat, Hlng.
Qed.

Lemma registry_acc_records (df : list trip) (id name : string) (lat lng : float) :
  (Some id, Some name, lat, lng) ∈ observed_stations df ->
  notna lat = true -> notna lng = true ->
  exists e, registry_acc df !! generate_station_uuid lat lng = Some e
            /\ id ∈ acc_bluebike_ids e.
Proof.
  intros Hin Hlat Hlng. unfold observed_stations in Hin.
  apply elem_of_app in Hin as [Hin|Hin]; unfold registry_acc.
  - destruct (registry_fold_records (start_stations df) ∅ id name lat lng)
      as (e1 & H1 & Hid); [apply dropna_elem; assumption|].
    destruct (registry_fold_grows (end_stations df) _ _ _ H1) as (e2 & H2 & Hsub & _).
    exists e2. split; [exact H2 | by apply Hsub].
  - apply registry_fold_records with (name := name). apply dropna_elem; assumption.
Qed.

Lemma registry_acc_keyed (df : list trip) : keyed_by_coordinates (registry_acc df).
Proof.
  unfold registry_acc. do 2 apply registry_fold_keyed.
  intros u e H. by rewrite lookup_empty in H.
Qed.

Lemma registry_finish_ids (e : station_acc) (id : string) :
  id ∈ bluebike_ids (registry_finish e) <-> id ∈ acc_bluebike_ids e.
Proof.
  unfold registry_finish, py_sorted. simpl. by rewrite sort_by_elem, elem_of_elements.
Qed.


(** *** Mapping trips to identities *)

Lemma create_station_registry_keyed (df : list trip) :
  keyed_registry (create_station_registry df).
Proof.
  intros u info. unfold create_station_registry. rewrite lookup_fmap.
  destruct (registry_acc df !! u) as [e|] eqn:E; simpl; [|discriminate].
  intros [= <-]. simpl. by apply (registry_acc_keyed df).
Qed.

Lemma coord_to_uuid_spec (reg : gmap string station_info) :
  (forall u info, reg !! u = Some info ->
     is_Some (coord_to_uuid reg !! coordinate_string (reg_lat info) (reg_lng info)))
  /\ (forall k u, coord_to_uuid reg !! k = Some u ->
        exists info, reg !! u = Some info
                     /\ coordinate_string (reg_lat info) (reg_lng info) = k).
Proof.
  unfold coord_to_uuid.
  apply (map_fold_weak_ind (fun acc (m : gmap string station_info) =>
    (forall u info, m !! u = Some info ->
       is_Some (acc !! coordinate_string (reg_lat info) (reg_lng info)))
    /\ (forall k u, acc !! k = Some u ->
          exists info, m !! u = Some info
                       /\ coordinate_string (reg_lat info) (reg_lng info) = k))).
  - split.
    + intros u info H. by rewrite lookup_empty in H.
    + intros k u H. by rewrite lookup_empty in H.
  - intros i x m r Hi [IH1 IH2]. split.
    + intros u info Hu. destruct (decide (i = u)) as [->|Hne].
      * rewrite lookup_insert_eq in Hu. injection Hu as <-.
        rewrite lookup_insert_eq. by eexists.
      * rewrite lookup_insert_ne in Hu by exact Hne.
        rewrite lookup_insert. case_decide; [by eexists | by apply (IH1 u)].
    + intros k u Hk. rewrite lookup_insert in Hk. case_decide as Hc.
      * injection Hk as <-. exists x. by rewrite lookup_insert_eq.
      * destruct (IH2 k u Hk) as (info & Hu & Hcs). exists info. split; [|exact Hcs].
        rewrite lookup_insert_ne; [exact Hu | congruence].
Qed.

(** A mapped trip carries, at each end, the key of its own coordinates. *)
Lemma map_trip_keys (reg : gmap string station_info) (t : trip) (r : mapped_trip) :
  keyed_registry reg ->
  map_trip (coord_to_uuid reg) t = Some r ->
  trip_of r = t
  /\ start_station_uuid r = generate_station_uuid (start_lat t) (start_lng t)
  /\ end_station_uuid r = generate_station_uuid (end_lat t) (end_lng t).
Proof.
  intros Hk. unfold map_trip.
  destruct (coord_to_uuid reg !! coordinate_string (start_lat t) (start_lng t))
    as [s|] eqn:Es; [|discriminate].
  destruct (coord_to_uuid reg !! coordinate_string (end_lat t) (end_lng t))
    as [e|] eqn:Ee; [|discriminate].
  intros [= <-]. simpl. split; [done|].
  destruct (proj2 (coord_to_uuid_spec reg) _ _ Es) as (si & His & Hcs).
  destruct (proj2 (coord_to_uuid_spec reg) _ _ Ee) as (ei & Hie & Hce).
  apply Hk in His. apply Hk in Hie.
  unfold generate_station_uuid in *. by rewrite <- Hcs, <- Hce.
Qed.

Lemma mapped_trip_keys (df df' : list trip) (r : mapped_trip) :
  r ∈ add_station_uuids_to_dataframe df (create_station_registry df') ->
  trip_of r ∈ df
  /\ start_station_uuid r
     = generate_station_uuid (start_lat (trip_of r)) (start_lng (trip_of r))
  /\ end_station_uuid r
     = generate_station_uuid (end_lat (trip_of r)) (end_lng (trip_of r)).
Proof.
  unfold add_station_uuids_to_dataframe. rewrite list_elem_of_omap.
  intros (t & Hin & Hmap).
  destruct (map_trip_keys _ _ _ (create_station_registry_keyed df') Hmap) as (-> & Hs & He).
  done.
Qed.

Lemma registry_resolves (df : list trip) (id name : string) (lat lng : float) :
  hash_injective ->
  (Some id, Some name, lat, lng) ∈ observed_stations df ->
  notna lat = true -> notna lng = true ->
  is_Some (coord_to_uuid (create_station_registry df) !! coordinate_string lat lng).
Proof.
  intros Hinj Hin Hlat Hlng.
  destruct (registry_acc_records df id name lat lng Hin Hlat Hlng) as (e & He & _).
  assert (create_station_registry df !! generate_station_uuid lat lng
          = Some (registry_finish e)) as Hreg.
  { unfold create_station_registry. by rewrite lookup_fmap, He. }
  pose proof (proj1 (coord_to_uuid_spec _) _ _ Hreg) as Hsome.
  pose proof (create_station_registry_keyed df _ _ Hreg) as Hkey.
  apply Hinj in Hkey. by rewrite Hkey in Hsome.
Qed.

Lemma station_row_notna_Some (r : station_row) :
  is_Some (station_row_notna r) ->
  exists id name, r = (Some id, Some name, r.1.2, r.2)
                  /\ notna r.1.2 = true /\ notna r.2 = true.
Proof.
  intros [x Hx]. destruct r as [[[[id|] [name|]] lat] lng]; simpl in *; try discriminate.
  destruct (notna lat) eqn:E1, (notna lng) eqn:E2; simpl in *; try discriminate.
  by exists id, name.
Qed.

Lemma complete_trip_mapped (df : list trip) (t : trip) :
  hash_injective -> t ∈ df -> stations_complete t ->
  exists r, map_trip (coord_to_uuid (create_station_registry df)) t = Some r
            /\ trip_of r = t.
Proof.
  intros Hinj Hin [Hs He].
  apply station_row_notna_Some in Hs as (ids & ns & Hrs & Hs1 & Hs2).
  apply station_row_notna_Some in He as (ide & ne & Hre & He1 & He2).
  simpl in *.
  destruct (registry_resolves df ids ns (start_lat t) (start_lng t) Hinj) as [s Hls];
    [|done|done|].
  { unfold observed_stations. apply elem_of_app. left. rewrite <- Hrs.
    by apply list_elem_of_fmap_2. }
  destruct (registry_resolves df ide ne (end_lat t) (end_lng t) Hinj) as [e Hle];
    [|done|done|].
  { unfold observed_stations. apply elem_of_app. right. rewrite <- Hre.
    by apply list_elem_of_fmap_2. }
  unfold map_trip. rewrite Hls, Hle. by eexists.
Qed.

Lemma omap_all_mapped (f : trip -> option mapped_trip) (l : list trip) :
  (forall t, t ∈ l -> exists r, f t = Some r /\ trip_of r = t) ->
  trip_of <$> omap f l = l.
Proof.
  induction l as [|t l IH]; intros H; simpl; [done|].
  destruct (H t) as (r & -> & Hr); [by left|]. simpl. rewrite Hr. f_equal.
  apply IH. intros t' Ht'. apply H. by right.
Qed.


(** *** One month, from the parsed file to its mapped trips *)

Lemma valid_trip_passes (t : trip) : valid_trip t = true <-> passes_filter t.
Proof.
  unfold valid_trip, passes_filter.
  rewrite !andb_true_iff, !bool_decide_eq_true. tauto.
Qed.

Lemma passes_filter_complete (t : trip) : passes_filter t -> stations_complete t.
Proof.
  intros (_ & _ & [sn Hsn] & [en Hen] & [si Hsi] & [ei Hei] & H1 & H2 & H3 & H4).
  unfold stations_complete, start_station_columns, end_station_columns. simpl.
  rewrite Hsn, Hen, Hsi, Hei, H1, H2, H3, H4. simpl. split; by eexists.
Qed.

Lemma batch_trips_valid (f : month_file) (r : mapped_trip) :
  r ∈ batch_trips f ->
  trip_of r ∈ file_rows f /\ passes_filter (trip_of r)
  /\ start_station_uuid r
     = generate_station_uuid (start_lat (trip_of r)) (start_lng (trip_of r))
  /\ end_station_uuid r
     = generate_station_uuid (end_lat (trip_of r)) (end_lng (trip_of r)).
Proof.
  unfold batch_trips, process_month_file. simpl. intros Hr.
  destruct (mapped_trip_keys _ _ _ Hr) as (Hin & Hs & He).
  apply list_elem_of_filter in Hin as [Hv Hin]. apply Is_true_true in Hv.
  split; [|split; [by apply valid_trip_passes | done]].
  unfold classic_rows in Hin. destruct (has_rideable_type f); [|done].
  by apply list_elem_of_filter in Hin as [_ Hin].
Qed.

Lemma classic_rows_app (modern : bool) (rows1 rows2 : list trip) :
  classic_rows (MonthFile modern (rows1 ++ rows2))
  = classic_rows (MonthFile modern rows1) ++ classic_rows (MonthFile modern rows2).
Proof. unfold classic_rows. simpl. destruct modern; [apply filter_app | done]. Qed.

(** A trip that fails the filter leaves no trace in the month's frame or
    registry. *)
Lemma invalid_trip_dropped (modern : bool) (rows1 rows2 : list trip) (t : trip) :
  valid_trip t = false ->
  process_month_file (MonthFile modern (rows1 ++ t :: rows2))
  = process_month_file (MonthFile modern (rows1 ++ rows2)).
Proof.
  intros Ht. unfold process_month_file.
  assert (filter (fun t => valid_trip t) (classic_rows (MonthFile modern (rows1 ++ t :: rows2)))
          = filter (fun t => valid_trip t) (classic_rows (MonthFile modern (rows1 ++ rows2))))
    as ->; [|done].
  rewrite !classic_rows_app, !filter_app. f_equal.
  change (t :: rows2) with ([t] ++ rows2). rewrite classic_rows_app, filter_app.
  assert (filter (fun t => valid_trip t) (classic_rows (MonthFile modern [t])) = []) as ->; [|done].
  unfold classic_rows. simpl. destruct modern.
  - rewrite filter_cons. case_decide; [|done].
    rewrite filter_cons, decide_False; [done|]. rewrite Ht. intros [].
  - rewrite filter_cons, decide_False; [done|]. rewrite Ht. intros [].
Qed.

(** ** The pair table of a month *)

Section Aggregates.

Context (math_radians math_sin math_cos math_asin math_sqrt : float -> float)
        (py_pow : float -> float -> float).

#[local] Abbreviation haversine_distance :=
  (haversine_distance math_radians math_sin math_cos math_asin math_sqrt py_pow).
#[local] Abbreviation group_row :=
  (group_row math_radians math_sin math_cos math_asin math_sqrt py_pow).
#[local] Abbreviation calculate_fastest_times :=
  (calculate_fastest_times math_radians math_sin math_cos math_asin math_sqrt py_pow).
#[local] Abbreviation batch_pair_table :=
  (batch_pair_table py_round py_str_float md5_uuid math_radians math_sin math_cos
     math_asin math_sqrt py_pow).

(** *** Groups and their aggregates *)

#[local] Abbreviation dur r := (duration_minutes (trip_of r)).

Lemma faster_duration (best r : mapped_trip) :
  dur (faster best r) = float_min (dur best) (dur r).
Proof. unfold faster, float_min. by destruct (dur r <? dur best)%float. Qed.

Lemma idxmin_fold_duration (others : list mapped_trip) (best : mapped_trip) :
  dur (fold_left faster others best)
  = fold_left float_min (duration_minutes ∘ trip_of <$> others) (dur best).
Proof.
  revert best. induction others as [|r others IH]; intros best; simpl; [done|].
  by rewrite IH, faster_duration.
Qed.

(** The ride [idxmin] names has the duration [min] returns, so the join of
    the two aggregates on the duration always finds it. *)
Lemma idxmin_duration (first : mapped_trip) (others : list mapped_trip) :
  dur (idxmin first others) = min_duration first others.
Proof. apply idxmin_fold_duration. Qed.

Lemma idxmin_fold_elem (others : list mapped_trip) (best : mapped_trip) :
  fold_left faster others best ∈ best :: others.
Proof.
  revert best. induction others as [|r others IH]; intros best; simpl; [by left|].
  specialize (IH (faster best r)). apply elem_of_cons in IH as [->|IH].
  - unfold faster. destruct (dur r <? dur best)%float; [right; left | left].
  - by do 2 right.
Qed.

Lemma idxmin_fold_lower (others seen : list mapped_trip) (best : mapped_trip) :
  (forall s, s ∈ seen -> (dur s <? dur best)%float = false) ->
  forall r, r ∈ seen ++ others ->
            (dur r <? dur (fold_left faster others best))%float = false.
Proof.
  revert seen best. induction others as [|a others IH]; intros seen best Hseen r Hr; simpl.
  - rewrite app_nil_r in Hr. by apply Hseen.
  - apply (IH (seen ++ [a])); [|by rewrite <- app_assoc].
    intros s Hs. unfold faster. destruct (dur a <? dur best)%float eqn:E.
    + apply elem_of_app in Hs as [Hs|Hs].
      * destruct (dur s <? dur a)%float eqn:E'; [|done].
        rewrite <- (Hseen s Hs). symmetry. by apply (F64.ltb_trans _ (dur a)).
      * apply list_elem_of_singleton in Hs as ->. apply F64.ltb_irrefl.
    + apply elem_of_app in Hs as [Hs|Hs]; [by apply Hseen|].
      by apply list_elem_of_singleton in Hs as ->.
Qed.

Lemma idxmin_lower (first : mapped_trip) (others : list mapped_trip) (r : mapped_trip) :
  r ∈ first :: others ->
  (dur r <? dur (idxmin first others))%float = false.
Proof.
  intros Hr. apply (idxmin_fold_lower others [first] first); [|done].
  intros s Hs. apply list_elem_of_singleton in Hs as ->. apply F64.ltb_irrefl.
Qed.

Lemma groupby_elem (df : list mapped_trip) (k : string * string) (g : list mapped_trip) :
  (k, g) ∈ groupby df <-> k ∈ pair_key <$> df /\ g = trips_of_pair df k.
Proof.
  unfold groupby. rewrite list_elem_of_fmap. split.
  - intros (k' & [= -> ->] & Hk). rewrite sort_by_elem, drop_duplicates_elem in Hk. done.
  - intros [Hk ->]. exists k. split; [done|]. by rewrite sort_by_elem, drop_duplicates_elem.
Qed.

Lemma groupby_keys (df : list mapped_trip) :
  fst <$> groupby df = sort_by pair_leb (drop_duplicates (pair_key <$> df)).
Proof.
  unfold groupby. rewrite <- list_fmap_compose. apply list_fmap_id.
Qed.

Lemma group_row_key (g : string * string * list mapped_trip) (row : pair_row) :
  group_row g = Some row -> row_key row = g.1.
Proof.
  unfold group_row. destruct g as [[s e] [|first others]]; simpl; [done|].
  by intros [= <-].
Qed.

Lemma omap_keys_NoDup {X Y K : Type} (f : X -> option Y) (kx : X -> K) (ky : Y -> K)
    (l : list X) :
  (forall x y, f x = Some y -> ky y = kx x) ->
  NoDup (kx <$> l) -> NoDup (ky <$> omap f l).
Proof.
  intros Hk. induction l as [|x l IH]; simpl; [constructor|].
  intros Hnd. apply NoDup_cons in Hnd as [Hx Hnd].
  destruct (f x) as [y|] eqn:E; simpl; [|by apply IH].
  apply NoDup_cons. split; [|by apply IH].
  intros Hy. apply Hx. apply list_elem_of_fmap in Hy as (y' & Hyy & Hy').
  apply list_elem_of_omap in Hy' as (x' & Hx' & Hf).
  apply list_elem_of_fmap. exists x'. split; [|done].
  by rewrite <- (Hk _ _ E), Hyy, (Hk _ _ Hf).
Qed.

(** The pair table has one row per ordered pair. *)
Lemma calculate_fastest_times_NoDup (df : list mapped_trip) :
  NoDup (row_key <$> calculate_fastest_times df).
Proof.
  unfold calculate_fastest_times.
  apply (omap_keys_NoDup _ fst row_key); [apply group_row_key|].
  rewrite groupby_keys. apply sort_by_NoDup, drop_duplicates_NoDup.
Qed.

(** A row of the pair table, read off its group. *)
Lemma calculate_fastest_times_row (df : list mapped_trip) (row : pair_row) :
  row ∈ calculate_fastest_times df ->
  exists first others,
    trips_of_pair df (row_key row) = first :: others
    /\ row_fastest_time_minutes row = dur (idxmin first others)
    /\ row_trip_count row = Z.of_nat (length (first :: others))
    /\ row_fastest_ride row = trip_of (idxmin first others)
    /\ row_distance_km row
       = haversine_distance
           (start_lat (row_fastest_ride row)) (start_lng (row_fastest_ride row))
           (end_lat (row_fastest_ride row)) (end_lng (row_fastest_ride row)).
Proof.
  unfold calculate_fastest_times. rewrite list_elem_of_omap.
  intros ([k g] & Hg & Hrow). apply groupby_elem in Hg as [Hk ->].
  pose proof (group_row_key _ _ Hrow) as Hkey. simpl in Hkey. subst k.
  unfold group_row in Hrow. simpl in Hrow.
  destruct (trips_of_pair df (row_key row)) as [|first others] eqn:E; [done|].
  injection Hrow as <-. exists first, others. simpl.
  by rewrite idxmin_duration.
Qed.

(** Every pair with a trip has its row. *)
Lemma calculate_fastest_times_covers (df : list mapped_trip) (r : mapped_trip) :
  r ∈ df -> exists row, row ∈ calculate_fastest_times df /\ row_key row = pair_key r.
Proof.
  intros Hr. unfold calculate_fastest_times.
  assert ((pair_key r, trips_of_pair df (pair_key r)) ∈ groupby df) as Hg.
  { apply groupby_elem. split; [by apply list_elem_of_fmap_2 | done]. }
  destruct (group_row (pair_key r, trips_of_pair df (pair_key r))) as [row|] eqn:E.
  - exists row. split; [|by apply group_row_key in E].
    apply list_elem_of_omap. by eexists.
  - unfold group_row in E. simpl in E.
    destruct (trips_of_pair df (pair_key r)) as [|first others] eqn:E'; [|done].
    assert (r ∈ trips_of_pair df (pair_key r)) as Hin
      by (by apply list_elem_of_filter).
    rewrite E' in Hin. inversion Hin.
Qed.

Lemma batch_pair_table_row (f : month_file) (row : pair_row) :
  row ∈ batch_pair_table f ->
  exists r,
    r ∈ trips_of_pair (batch_trips f) (row_key row)
    /\ row_fastest_ride row = trip_of r
    /\ row_fastest_time_minutes row = dur r
    /\ (forall r', r' ∈ trips_of_pair (batch_trips f) (row_key row) ->
          (dur r' <? dur r)%float = false)
    /\ row_trip_count row
       = Z.of_nat (length (trips_of_pair (batch_trips f) (row_key row)))
    /\ row_distance_km row
       = haversine_distance (start_lat (trip_of r)) (start_lng (trip_of r))
           (end_lat (trip_of r)) (end_lng (trip_of r)).
Proof.
  intros Hrow. apply calculate_fastest_times_row in Hrow
    as (first & others & Hg & Hfast & Hcount & Hride & Hdist).
  exists (idxmin first others). rewrite Hg. repeat split; try done.
  - apply idxmin_fold_elem.
  - intros r' Hr'. by apply idxmin_lower.
  - by rewrite <- Hride.
Qed.


(** C9. Every trip behind a month's pair table is a row of the month's file
    that lasts more than one and less than 1440 minutes and has its station
    names, station ids and coordinates at both ends; the count of a pair is
    the number of such trips of the pair and its fastest ride is one of
    them; and a row of the file that fails any of these conditions can be
    removed from the file without changing the month's frame, registry or
    pair table: it is excluded before identities are resolved. *)
Theorem only_valid_trips_contribute (f : month_file) :
  (forall r, r ∈ batch_trips f ->
     trip_of r ∈ file_rows f /\ passes_filter (trip_of r))
  /\ (forall row, row ∈ batch_pair_table f ->
        row_trip_count row
        = Z.of_nat (length (trips_of_pair (batch_trips f) (row_key row)))
        /\ exists r, r ∈ batch_trips f /\ pair_key r = row_key row
                     /\ row_fastest_ride row = trip_of r
                     /\ row_fastest_time_minutes row = dur r)
  /\ (forall rows1 t rows2,
        file_rows f = rows1 ++ t :: rows2 ->
        ~ passes_filter t ->
        let f' := MonthFile (has_rideable_type f) (rows1 ++ rows2) in
        process_month_file f = process_month_file f'
        /\ batch_pair_table f = batch_pair_table f').
Proof.
  split; [|split].
  - intros r Hr. by destruct (batch_trips_valid f r Hr) as (? & ? & _).
  - intros row Hrow.
    destruct (batch_pair_table_row f row Hrow) as (r & Hr & Hride & Hfast & _ & Hcount & _).
    split; [done|]. exists r. apply list_elem_of_filter in Hr as [Hk Hr]. done.
  - intros rows1 t rows2 Hrows Ht f'.
    assert (process_month_file f = process_month_file f') as Heq.
    { destruct f as [modern rows]. simpl in *. subst rows. apply invalid_trip_dropped.
      destruct (valid_trip t) eqn:E; [|done]. by apply valid_trip_passes in E. }
    split; [exact Heq|]. unfold batch_pair_table, batch_trips. by rewrite Heq.
Qed.

Section Cumulative.

Context (strftime : Z -> string).

#[local] Abbreviation new_destination := (new_destination py_round strftime).

(** C3, as amended. The distance of a row of a month's pair table is the
    haversine distance between the raw coordinates of the month's fastest
    ride of the pair, a trip whose two ends resolve to the two identities of
    the pair; the entry written for the pair in the cumulative table keeps
    that distance rounded to two decimals. *)
Theorem distance_from_fastest_ride (f : month_file) (row : pair_row) :
  row ∈ batch_pair_table f ->
  (exists r,
     r ∈ batch_trips f /\ row_fastest_ride row = trip_of r
     /\ row_fastest_time_minutes row = dur r
     /\ generate_station_uuid (start_lat (trip_of r)) (start_lng (trip_of r))
        = row_start_station_uuid row
     /\ generate_station_uuid (end_lat (trip_of r)) (end_lng (trip_of r))
        = row_end_station_uuid row
     /\ row_distance_km row
        = haversine_distance (start_lat (trip_of r)) (start_lng (trip_of r))
            (end_lat (trip_of r)) (end_lng (trip_of r)))
  /\ forall merged_registry formatted,
       distance_km (new_destination merged_registry row formatted)
       = py_round (row_distance_km row) 2.
Proof.
  intros Hrow. split; [|done].
  destruct (batch_pair_table_row f row Hrow) as (r & Hr & Hride & Hfast & _ & _ & Hdist).
  apply list_elem_of_filter in Hr as [Hk Hr].
  destruct (batch_trips_valid f r Hr) as (_ & _ & Hs & He).
  exists r. unfold pair_key, row_key in Hk. injection Hk as Hks Hke.
  repeat split; try done; congruence.
Qed.

(** The merge of a month's own pair table never raises: every time in it
    is the duration of a trip that passed the filter. *)
Lemma batch_pair_table_formattable (f : month_file) (row : pair_row) :
  row ∈ batch_pair_table f ->
  is_Some (format_minutes (row_fastest_time_minutes row)).
Proof.
  intros Hrow.
  destruct (batch_pair_table_row f row Hrow) as (r & Hr & _ & Hfast & _).
  apply list_elem_of_filter in Hr as [_ Hr].
  destruct (batch_trips_valid f r Hr) as (_ & (H1 & H2 & _) & _).
  rewrite Hfast. by apply Magnitude.format_minutes_defined.
Qed.

Lemma month_merge_completes (f : month_file)
    (stations : gmap string station) (registry : gmap string station_info) :
  is_Some (create_station_data py_round strftime (batch_pair_table f)
             (process_month_file f).2 stations registry).
Proof.
  unfold create_station_data.
  destruct (merge_rows_defined py_round strftime
              (merge_registry (process_month_file f).2 registry)
              (batch_pair_table f) stations) as [st Hst].
  - intros r Hr. by apply (batch_pair_table_formattable f).
  - rewrite Hst. by eexists.
Qed.

(** *** The month loop *)

Section Loop.

Context (read_month_file : string -> option month_file).

#[local] Abbreviation process_month :=
  (process_month py_round py_str_float md5_uuid math_radians math_sin math_cos
     math_asin math_sqrt py_pow strftime read_month_file).
#[local] Abbreviation main_loop :=
  (main_loop py_round py_str_float md5_uuid math_radians math_sin math_cos
     math_asin math_sqrt py_pow strftime read_month_file).
#[local] Abbreviation month_file_of := (month_file_of read_month_file).

(** One turn of the loop appends the month to the ledger exactly when its
    file is found and read: the merge itself does not fail. *)
Lemma process_month_ledger (all_files : list string) (state : run_state) (month : string) :
  processed_months (process_month all_files state month)
  = processed_months state
    ++ (if decide (is_Some (month_file_of all_files month)) then [month] else []).
Proof.
  unfold process_month, month_file_of.
  destruct (file_of_month all_files month) as [filename|]; simpl;
    [|by rewrite app_nil_r].
  destruct (read_month_file filename) as [f|]; simpl;
    [|by rewrite app_nil_r].
  pose proof (month_merge_completes f (stations_data state) (merged_registry_of state))
    as [[stations merged] Hmerge].
  unfold batch_pair_table, batch_trips, process_month_file in Hmerge.
  simpl in Hmerge. by rewrite Hmerge.
Qed.

Lemma loop_ledger (all_files months : list string) (state : run_state) :
  processed_months (fold_left (process_month all_files) months state)
  = processed_months state
    ++ filter (fun month => is_Some (month_file_of all_files month)) months.
Proof.
  revert state. induction months as [|m months IH]; intros state; simpl.
  - by rewrite app_nil_r.
  - rewrite IH, process_month_ledger, filter_cons.
    destruct (decide (is_Some (month_file_of all_files m))); simpl.
    + by rewrite <- app_assoc.
    + by rewrite app_nil_r.
Qed.


End Loop.

End Cumulative.

End Aggregates.

End Facts.

(** * Further properties of the code

    The file list, the pair table, the registry, the merge, the saved state
    and the file names, each on its own terms. *)

(** ** Text *)

Lemma length_append (a b : string) :
  String.length (a ++ b) = (String.length a + String.length b)%nat.
Proof. induction a as [|c a IH]; simpl; [done|]. by rewrite IH. Qed.

Lemma substring_0_append (a b : string) :
  substring 0 (String.length a) (a ++ b) = a.
Proof.
  induction a as [|c a IH]; simpl.
  - by destruct b.
  - by rewrite IH.
Qed.

Lemma substring_append_r (a b : string) (n : nat) :
  substring (String.length a) n (a ++ b) = substring 0 n b.
Proof. induction a as [|c a IH]; simpl; [done|]. exact IH. Qed.

Lemma substring_0_all (s : string) : substring 0 (String.length s) s = s.
Proof. induction s as [|c s IH]; simpl; [done|]. by rewrite IH. Qed.

Lemma substring_split (s : string) (n : nat) :
  (n <= String.length s)%nat ->
  s = (substring 0 n s ++ substring n (String.length s - n) s)%string.
Proof.
  revert n. induction s as [|c s IH]; intros n Hn; simpl in *.
  - assert (n = 0)%nat as -> by lia. done.
  - destruct n as [|n]; simpl.
    + by rewrite substring_0_all.
    + change (String c s = String c (substring 0 n s ++ substring n (String.length s - n) s)).
      f_equal. apply IH. lia.
Qed.

Lemma prefix_append (a b : string) : String.prefix a (a ++ b) = true.
Proof. apply prefix_correct, substring_0_append. Qed.

Lemma prefix_spec (a s : string) :
  String.prefix a s = true <-> exists b, s = (a ++ b)%string.
Proof.
  split.
  - revert s. induction a as [|c a IH]; intros s; simpl.
    + intros _. by exists s.
    + destruct s as [|c' s]; [done|]. intros H. simpl in H.
      destruct (ascii_dec c c') as [->|]; [|done].
      apply IH in H as [b ->]. by exists b.
  - intros [b ->]. apply prefix_append.
Qed.

Lemma endswith_spec (s suffix : string) :
  endswith s suffix = true <-> exists stem, s = (stem ++ suffix)%string.
Proof.
  unfold endswith. rewrite andb_true_iff, Nat.leb_le, String.eqb_eq. split.
  - intros [Hlen Heq].
    exists (substring 0 (String.length s - String.length suffix) s).
    pose proof (substring_split s (String.length s - String.length suffix)) as Hs.
    replace (String.length s - (String.length s - String.length suffix))%nat
      with (String.length suffix) in Hs by lia.
    rewrite Heq in Hs. apply Hs. lia.
  - intros [stem ->]. rewrite length_append. split; [lia|].
    replace (String.length stem + String.length suffix - String.length suffix)%nat
      with (String.length stem) by lia.
    rewrite substring_append_r. apply substring_0_all.
Qed.

Lemma contains_spec (sub s : string) :
  contains sub s = true <-> exists a b, s = (a ++ sub ++ b)%string.
Proof.
  split.
  - induction s as [|c s IH]; cbn [contains]; rewrite orb_true_iff.
    + intros [H|H]; [|done]. apply prefix_spec in H as [b ->]. by exists EmptyString, b.
    + intros [H|H].
      * apply prefix_spec in H as [b ->]. by exists EmptyString, b.
      * destruct (IH H) as (a & b & ->). by exists (String c a), b.
  - intros (a & b & ->). induction a as [|c a IH].
    + change (contains sub (sub ++ b) = true).
      destruct (sub ++ b)%string eqn:E; cbn [contains]; rewrite orb_true_iff; left;
        rewrite <- E; apply prefix_append.
    + change (contains sub (String c (a ++ sub ++ b)) = true). cbn [contains].
      rewrite IH. apply orb_true_r.
Qed.

Lemma length_substring_0 (s : string) (n : nat) :
  (n <= String.length s)%nat -> String.length (substring 0 n s) = n.
Proof.
  revert n. induction s as [|c s IH]; intros n Hn; simpl in *.
  - assert (n = 0)%nat as -> by lia. done.
  - destruct n as [|n]; simpl; [done|]. rewrite IH; [done|lia].
Qed.

Lemma prefix_substring_0 (s : string) (n : nat) :
  String.prefix (substring 0 n s) s = true.
Proof.
  revert n. induction s as [|c s IH]; intros n.
  - by destruct n.
  - destruct n as [|n]; simpl; [done|].
    destruct (ascii_dec c c); [apply IH|done].
Qed.

Lemma replace_from_skip (old new a b : string) :
  replace_from old new (String.length a) (a ++ b) = replace_from old new 0 b.
Proof.
  induction a as [|c a IH]; [done|].
  change (replace_from old new (S (String.length a)) (String c (a ++ b))
          = replace_from old new 0 b).
  simpl. exact IH.
Qed.

Lemma str_replace_occurrence (old new : string) (c : ascii) (o b : string) :
  old = String c o ->
  str_replace old new (old ++ b) = (new ++ str_replace old new b)%string.
Proof.
  intros ->. unfold str_replace.
  change (replace_from (String c o) new 0 (String c (o ++ b))
          = (new ++ replace_from (String c o) new 0 b)%string).
  cbn [replace_from].
  rewrite (prefix_append (String c o) b : String.prefix (String c o) (String c (o ++ b)) = true).
  cbn [String.length]. rewrite Nat.sub_1_r. cbn [Nat.pred].
  by rewrite replace_from_skip.
Qed.

Lemma str_replace_other (old new : string) (c : ascii) (s : string) :
  String.prefix old (String c s) = false ->
  str_replace old new (String c s) = String c (str_replace old new s).
Proof. unfold str_replace. cbn [replace_from]. by intros ->. Qed.

(** Replacing a text by itself changes nothing. *)
Lemma str_replace_same (old : string) (s : string) :
  old <> EmptyString -> str_replace old old s = s.
Proof.
  intros Hold. destruct old as [|c o]; [done|].
  remember (String.length s) as n eqn:Hn. revert s Hn.
  induction n as [n IH] using lt_wf_ind. intros s Hn.
  destruct s as [|c' s']; [done|].
  destruct (String.prefix (String c o) (String c' s')) eqn:E.
  - apply prefix_spec in E as [b Hb]. rewrite Hb.
    rewrite (str_replace_occurrence _ _ c o b eq_refl). f_equal.
    apply (IH (String.length b)); [|done].
    rewrite Hn, Hb, length_append. simpl. lia.
  - rewrite (str_replace_other _ _ _ _ E). f_equal.
    apply (IH (String.length s')); [|done]. rewrite Hn. simpl. lia.
Qed.

Lemma contains_cons_false (sub : string) (c : ascii) (s : string) :
  contains sub (String c s) = false ->
  String.prefix sub (String c s) = false /\ contains sub s = false.
Proof. cbn [contains]. by rewrite orb_false_iff. Qed.

Lemma prefix_cons_append (c c' : ascii) (o s t : string) :
  String.prefix (String c o) (String c' s) = false -> o = EmptyString ->
  String.prefix (String c o) (String c' (s ++ t)) = false.
Proof.
  intros H ->. simpl in *. destruct (ascii_dec c c'); [|done]. by destruct s.
Qed.

(** A part with no occurrence of a one-character [old] passes through. *)
Lemma str_replace_clean_prefix (c : ascii) (new a b : string) :
  contains (String c EmptyString) a = false ->
  str_replace (String c EmptyString) new (a ++ b)
  = (a ++ str_replace (String c EmptyString) new b)%string.
Proof.
  induction a as [|c' a IH]; [done|]. intros [Hp Hc]%contains_cons_false.
  change (str_replace (String c EmptyString) new (String c' (a ++ b))
          = String c' (a ++ str_replace (String c EmptyString) new b)).
  rewrite str_replace_other; [by rewrite IH|].
  by apply prefix_cons_append.
Qed.

Lemma prefix_char (c c' : ascii) (s : string) :
  String.prefix (String c EmptyString) (String c' s) = bool_decide (c = c').
Proof.
  simpl. destruct (ascii_dec c c') as [->|Hne].
  - rewrite bool_decide_eq_true_2 by done. by destruct s.
  - by rewrite bool_decide_eq_false_2.
Qed.

Lemma prefix_cons_ne (c c' : ascii) (o s : string) :
  c <> c' -> String.prefix (String c o) (String c' s) = false.
Proof. intros Hne. simpl. by destruct (ascii_dec c c'). Qed.

Lemma prefix_char_false (c c' : ascii) (s : string) :
  String.prefix (String c EmptyString) (String c' s) = false -> c <> c'.
Proof. rewrite prefix_char. intros H ->. by rewrite bool_decide_eq_true_2 in H. Qed.

Lemma str_replace_char_removed (c : ascii) (s : string) :
  contains (String c EmptyString) (str_replace (String c EmptyString) EmptyString s) = false.
Proof.
  induction s as [|c' s IH]; [done|].
  destruct (String.prefix (String c EmptyString) (String c' s)) eqn:E.
  - apply prefix_spec in E as [b Hb]. rewrite Hb.
    rewrite (str_replace_occurrence _ _ c EmptyString b eq_refl).
    simpl in Hb. injection Hb as _ ->. exact IH.
  - rewrite (str_replace_other _ _ _ _ E). cbn [contains].
    rewrite prefix_char in E |- *. by rewrite E, IH.
Qed.

Lemma contains_char_substring (c : ascii) (s : string) (n : nat) :
  contains (String c EmptyString) s = false ->
  contains (String c EmptyString) (substring 0 n s) = false.
Proof.
  revert n. induction s as [|c' s IH]; intros n.
  - by destruct n.
  - intros [Hp Hc]%contains_cons_false. destruct n as [|n]; [done|].
    change (contains (String c EmptyString) (String c' (substring 0 n s)) = false).
    cbn [contains]. rewrite (IH n Hc), orb_false_r.
    rewrite prefix_char in *. done.
Qed.

Lemma length_substring_le (s : string) (n : nat) :
  (String.length (substring 0 n s) <= n)%nat.
Proof.
  revert n. induction s as [|c s IH]; intros [|n]; simpl; try lia.
  specialize (IH n). lia.
Qed.

Lemma append_assoc (a b c : string) : ((a ++ b) ++ c = a ++ (b ++ c))%string.
Proof.
  induction a as [|x a IH]; [done|].
  change (String x ((a ++ b) ++ c) = String x (a ++ (b ++ c)))%string. by f_equal.
Qed.

Lemma prefix_two (c c' : ascii) (s : string) :
  String.prefix (String c (String c EmptyString)) (String c' s)
  = bool_decide (c = c') && String.prefix (String c EmptyString) s.
Proof.
  cbn [String.prefix]. destruct (ascii_dec c c') as [->|Hne].
  - by rewrite bool_decide_eq_true_2.
  - by rewrite bool_decide_eq_false_2.
Qed.

(** ** The list of data files and the months to process *)

Lemma is_data_file_spec (f : string) :
  is_data_file f = true <->
  (exists stem, f = (stem ++ ".zip")%string)
  /\ (exists a b, f = (a ++ "bluebikes" ++ b)%string)
  /\ String.leb "201805" (extract_month_from_filename f) = true.
Proof.
  unfold is_data_file, extract_month_from_filename.
  rewrite !andb_true_iff, endswith_spec, contains_spec. tauto.
Qed.

Lemma fetch_all_data_files_Some (keys all_files : list string) :
  fetch_all_data_files keys = Some all_files ->
  all_files = py_sorted (filter (fun f => is_data_file f = true) keys)
  /\ filter (fun f => is_data_file f = true) keys <> [].
Proof.
  unfold fetch_all_data_files.
  destruct (filter _ keys) as [|f0 l] eqn:E; [done|].
  intros H. apply (inj Some) in H. by subst.
Qed.

Lemma fetch_all_data_files_elem (keys all_files : list string) (f : string) :
  fetch_all_data_files keys = Some all_files ->
  f ∈ all_files <-> f ∈ keys /\ is_data_file f = true.
Proof.
  intros [-> _]%fetch_all_data_files_Some.
  unfold py_sorted. rewrite sort_by_elem, list_elem_of_filter. tauto.
Qed.

(** X1. [fetch_all_data_files] returns the keys of the listing that end in
    [.zip], contain [bluebikes] and whose first six characters are not below
    [201805], each as often as it is listed, in ascending order; it raises
    exactly when no key qualifies. *)
Theorem fetch_all_data_files_selects (keys : list string) :
  let wanted f :=
    (exists stem, f = (stem ++ ".zip")%string)
    /\ (exists a b, f = (a ++ "bluebikes" ++ b)%string)
    /\ String.leb "201805" (extract_month_from_filename f) = true in
  match fetch_all_data_files keys with
  | Some files =>
      files <> []
      /\ Sorted (fun a b => String.leb a b = true) files
      /\ files ≡ₚ filter (fun f => is_data_file f = true) keys
      /\ forall f, f ∈ files <-> f ∈ keys /\ wanted f
  | None => forall f, f ∈ keys -> ~ wanted f
  end.
Proof.
  intros wanted.
  destruct (fetch_all_data_files keys) as [files|] eqn:E.
  - apply fetch_all_data_files_Some in E as [-> Hne].
    split; [|split; [|split]].
    + intros Hnil. apply Hne. apply Permutation_nil.
      rewrite <- Hnil. apply sort_by_Permutation.
    + apply sort_by_Sorted, String.leb_total.
    + apply sort_by_Permutation.
    + intros f. unfold wanted. rewrite <- is_data_file_spec.
      unfold py_sorted. rewrite sort_by_elem, list_elem_of_filter. tauto.
  - intros f Hf Hw. apply is_data_file_spec in Hw.
    unfold fetch_all_data_files in E.
    destruct (filter _ keys) as [|f0 l] eqn:E'; [|done].
    assert (f ∈ filter (fun f => is_data_file f = true) keys) as Hin
      by (apply list_elem_of_filter; done).
    rewrite E' in Hin. inversion Hin.
Qed.

(** X2. With the files that [fetch_all_data_files] returns, every month
    that [main] sets out to process has six characters, is not before
    [201805], and has a file: the search by prefix finds a listed file with
    a non-empty name whose month it is, so the branch that warns of a
    missing file is never taken. *)
Theorem work_months_have_files (keys all_files processed : list string) (month : string) :
  fetch_all_data_files keys = Some all_files ->
  month ∈ unprocessed_months all_files processed ->
  String.length month = 6%nat
  /\ String.leb "201805" month = true
  /\ exists filename,
       file_of_month all_files month = Some filename
       /\ filename ∈ keys
       /\ filename <> EmptyString
       /\ extract_month_from_filename filename = month.
Proof.
  intros Hfiles Hmonth.
  assert (forall f, f ∈ all_files ->
            f ∈ keys /\ (9 <= String.length f)%nat
            /\ String.leb "201805" (extract_month_from_filename f) = true) as Hall.
  { intros f Hf. apply (fetch_all_data_files_elem _ _ _ Hfiles) in Hf as [Hk Hd].
    split; [done|]. apply is_data_file_spec in Hd as (_ & (a & b & ->) & Hge).
    split; [|done]. rewrite !length_append. simpl. lia. }
  unfold unprocessed_months, py_sorted in Hmonth.
  apply sort_by_elem, list_elem_of_filter in Hmonth as [_ Hmonth].
  apply list_elem_of_fmap in Hmonth as (f0 & -> & Hf0).
  destruct (Hall f0 Hf0) as (_ & Hlen0 & Hge0).
  assert (String.length (extract_month_from_filename f0) = 6%nat) as Hlen.
  { unfold extract_month_from_filename. apply length_substring_0. lia. }
  split; [done|]. split; [done|].
  unfold file_of_month.
  destruct (List.find _ all_files) as [filename|] eqn:E.
  - apply find_some in E as [Hin Hpre]. exists filename.
    destruct (Hall filename) as (Hk & Hl & _); [by apply list_elem_of_In|].
    split; [done|]. split; [done|]. split.
    + intros ->. simpl in Hl. lia.
    + apply prefix_correct in Hpre. rewrite Hlen in Hpre. exact Hpre.
  - exfalso. pose proof (find_none _ _ E f0) as Hnone. simpl in Hnone.
    unfold extract_month_from_filename in Hnone.
    rewrite prefix_substring_0 in Hnone.
    by specialize (Hnone ltac:(by apply list_elem_of_In)).
Qed.

Section Rerun.

Context (py_round : float -> Z -> float)
        (py_str_float : float -> string)
        (md5_uuid : string -> string)
        (math_radians math_sin math_cos math_asin math_sqrt : float -> float)
        (py_pow : float -> float -> float)
        (strftime : Z -> string)
        (read_month_file : string -> option month_file).

#[local] Abbreviation main_loop :=
  (main_loop py_round py_str_float md5_uuid math_radians math_sin math_cos
     math_asin math_sqrt py_pow strftime read_month_file).
#[local] Abbreviation month_file_of := (month_file_of read_month_file).

(** X3. A second run over the same files takes up exactly the months that
    the first run set out to process and could not fetch or read; the months
    it merged are not processed again. *)
Theorem second_run_retries_failed_months (all_files : list string) (state : run_state)
    (month : string) :
  month ∈ unprocessed_months all_files (processed_months (main_loop all_files state))
  <-> month ∈ unprocessed_months all_files (processed_months state)
      /\ month_file_of all_files month = None.
Proof.
  unfold main_loop. rewrite loop_ledger.
  unfold unprocessed_months at 1 3, py_sorted.
  rewrite !sort_by_elem, !list_elem_of_filter, not_elem_of_app, list_elem_of_filter.
  unfold unprocessed_months, py_sorted. rewrite sort_by_elem, list_elem_of_filter.
  destruct (month_file_of all_files month) as [f|] eqn:E.
  - split; [|by intros [_ [=]]]. intros [[Hold Hnew] Hin]. exfalso. apply Hnew.
    split; [by eexists|done].
  - split; [tauto|]. intros [[Hold Hin] _]. split; [|done]. split; [done|].
    intros [[? [=]] _].
Qed.
End Rerun.

(** ** The pair table *)

Lemma pair_leb_total (a b : string * string) :
  pair_leb a b = true \/ pair_leb b a = true.
Proof.
  unfold pair_leb. rewrite (String.compare_antisym b.1 a.1).
  destruct (String.compare a.1 b.1); simpl; auto. apply String.leb_total.
Qed.

Section Counting.

Context {A K : Type} `{EqDecision K} (key : A -> K).

(** Groups by key partition a list: their sizes add up to its length. *)
Lemma group_sizes_total (l : list A) (ks : list K) :
  NoDup ks -> (forall x, x ∈ l -> key x ∈ ks) ->
  foldr Z.add 0 ((fun k => Z.of_nat (length (filter (fun x => key x = k) l))) <$> ks)
  = Z.of_nat (length l).
Proof.
  intros Hnd. revert l. induction Hnd as [|k ks Hk Hnd IH]; intros l Hl; simpl.
  - destruct l as [|x l]; [done|]. specialize (Hl x ltac:(left)). inversion Hl.
  - rewrite <- (Permutation_length (filter_app_complement (fun x => key x = k) l)).
    rewrite length_app, Nat2Z.inj_add. f_equal.
    rewrite <- (IH (filter (fun x => key x <> k) l)).
    + f_equal. apply Forall_fmap_ext, Forall_forall. intros k' Hk'.
      rewrite list_filter_filter_l; [done|]. intros x -> ->. done.
    + intros x [Hne Hx]%list_elem_of_filter.
      specialize (Hl x Hx). apply elem_of_cons in Hl as [?|?]; done.
Qed.

End Counting.
Section PairTable.

Context (math_radians math_sin math_cos math_asin math_sqrt : float -> float)
        (py_pow : float -> float -> float).

#[local] Abbreviation group_row :=
  (group_row math_radians math_sin math_cos math_asin math_sqrt py_pow).
#[local] Abbreviation calculate_fastest_times :=
  (calculate_fastest_times math_radians math_sin math_cos math_asin math_sqrt py_pow).

Lemma omap_group_rows (df : list mapped_trip) (ks : list (string * string)) :
  (forall k, k ∈ ks -> k ∈ pair_key <$> df) ->
  row_key <$> omap group_row ((fun k => (k, filter (fun r => pair_key r = k) df)) <$> ks)
  = ks
  /\ row_trip_count
       <$> omap group_row ((fun k => (k, filter (fun r => pair_key r = k) df)) <$> ks)
     = (fun k => Z.of_nat (length (filter (fun r => pair_key r = k) df))) <$> ks.
Proof.
  induction ks as [|k ks IH]; intros Hks; [done|].
  destruct IH as [IH1 IH2]; [intros k' Hk'; apply Hks; by right|].
  rewrite !fmap_cons. cbn [omap list_omap]. cbn beta.
  destruct (filter (fun r => pair_key r = k) df) as [|first others] eqn:E.
  - exfalso. specialize (Hks k ltac:(left)).
    apply list_elem_of_fmap in Hks as (r & -> & Hr).
    assert (r ∈ filter (fun r' => pair_key r' = pair_key r) df) as Hin
      by (by apply list_elem_of_filter).
    rewrite E in Hin. inversion Hin.
  - split; unfold group_row at 1; cbn [snd fst]; rewrite fmap_cons; f_equal; try done.
    unfold row_key. simpl. by destruct k.
Qed.

(** X4. The pair table is ordered by pair, has one row for every pair that
    occurs in the frame and no other, and its counts add up to the number of
    trips of the frame: no trip is lost or counted twice. *)
Theorem pair_table_ordered_and_complete (df : list mapped_trip) :
  let table := calculate_fastest_times df in
  Sorted (fun a b => pair_leb a b = true) (row_key <$> table)
  /\ NoDup (row_key <$> table)
  /\ (forall k, k ∈ row_key <$> table <-> k ∈ pair_key <$> df)
  /\ foldr Z.add 0 (row_trip_count <$> table) = Z.of_nat (length df).
Proof.
  intros table.
  assert (forall k, k ∈ sort_by pair_leb (drop_duplicates (pair_key <$> df))
                    <-> k ∈ pair_key <$> df) as Hkeys.
  { intros k. by rewrite sort_by_elem, drop_duplicates_elem. }
  destruct (omap_group_rows df (sort_by pair_leb (drop_duplicates (pair_key <$> df))))
    as [Hk Hc]; [intros k; apply Hkeys|].
  unfold table, calculate_fastest_times, groupby.
  rewrite Hk, Hc.
  split; [apply sort_by_Sorted, pair_leb_total|].
  split; [apply sort_by_NoDup, drop_duplicates_NoDup|].
  split; [exact Hkeys|].
  apply group_sizes_total; [apply sort_by_NoDup, drop_duplicates_NoDup|].
  intros r Hr. apply Hkeys. by apply list_elem_of_fmap_2.
Qed.
End PairTable.

(** ** Identities and the registry *)

Lemma omap_sublist {X Y : Type} (f : X -> option Y) (g : Y -> X) (l : list X) :
  (forall x y, f x = Some y -> g y = x) ->
  sublist (g <$> omap f l) l.
Proof.
  intros Hfg. induction l as [|x l IH]; simpl; [constructor|].
  destruct (f x) as [y|] eqn:E; simpl.
  - rewrite (Hfg _ _ E). by constructor.
  - by constructor.
Qed.
Lemma dropna_elem_inv (rows : list station_row) (id name : string) (lat lng : float) :
  (id, name, lat, lng) ∈ dropna (drop_duplicates rows) <->
  (Some id, Some name, lat, lng) ∈ rows /\ notna lat = true /\ notna lng = true.
Proof.
  unfold dropna. rewrite list_elem_of_omap. split.
  - intros ([[[i n] la] ln] & Hin & Hrow). rewrite drop_duplicates_elem in Hin.
    unfold station_row_notna in Hrow. destruct i as [i|]; [|done].
    destruct n as [n|]; [|done].
    destruct (notna la) eqn:Ela; [|done]. destruct (notna ln) eqn:Eln; [|done].
    simpl in Hrow. injection Hrow as <- <- <- <-. done.
  - intros (Hin & Hlat & Hlng). exists (Some id, Some name, lat, lng).
    split; [by rewrite drop_duplicates_elem|]. simpl. by rewrite Hlat, Hlng.
Qed.

Lemma seen_stations_elem (df : list trip) (id name : string) (lat lng : float) :
  (id, name, lat, lng) ∈ start_stations df ++ end_stations df <->
  (Some id, Some name, lat, lng) ∈ observed_stations df
  /\ notna lat = true /\ notna lng = true.
Proof.
  unfold start_stations, end_stations, observed_stations.
  rewrite !elem_of_app, !dropna_elem_inv. tauto.
Qed.
Section Identities.

Context (py_round : float -> Z -> float)
        (py_str_float : float -> string)
        (md5_uuid : string -> string).

#[local] Abbreviation coordinate_string := (coordinate_string py_round py_str_float).
#[local] Abbreviation generate_station_uuid :=
  (generate_station_uuid py_round py_str_float md5_uuid).
#[local] Abbreviation registry_add := (registry_add py_round py_str_float md5_uuid).
#[local] Abbreviation registry_acc := (registry_acc py_round py_str_float md5_uuid).
#[local] Abbreviation create_station_registry :=
  (create_station_registry py_round py_str_float md5_uuid).
#[local] Abbreviation coord_to_uuid := (coord_to_uuid py_round py_str_float).
#[local] Abbreviation map_trip := (map_trip py_round py_str_float).
#[local] Abbreviation add_station_uuids_to_dataframe :=
  (add_station_uuids_to_dataframe py_round py_str_float).

(** X5. The rows that [add_station_uuids_to_dataframe] keeps are rows of the
    frame, in the frame's order; with a registry built by
    [create_station_registry], from this frame or another, each carries at
    either end the key of its own coordinates, and that key is an entry of
    the registry. *)
Theorem mapped_rows_in_order_with_own_keys (df df' : list trip) :
  let station_registry := create_station_registry df' in
  let mapped := add_station_uuids_to_dataframe df station_registry in
  sublist (trip_of <$> mapped) df
  /\ forall r, r ∈ mapped ->
       start_station_uuid r
       = generate_station_uuid (start_lat (trip_of r)) (start_lng (trip_of r))
       /\ end_station_uuid r
          = generate_station_uuid (end_lat (trip_of r)) (end_lng (trip_of r))
       /\ is_Some (station_registry !! start_station_uuid r)
       /\ is_Some (station_registry !! end_station_uuid r).
Proof.
  intros station_registry mapped. split.
  - apply omap_sublist. intros t r. unfold map_trip.
    destruct (_ !! _); [|done]. destruct (_ !! _); [|done]. by intros [= <-].
  - intros r Hr.
    destruct (mapped_trip_keys py_round py_str_float md5_uuid df df' r Hr) as (_ & Hs & He).
    split; [done|]. split; [done|].
    unfold mapped, add_station_uuids_to_dataframe in Hr.
    apply list_elem_of_omap in Hr as (t & _ & Hmap).
    unfold map_trip in Hmap.
    destruct (_ !! coordinate_string (start_lat t) (start_lng t)) as [s|] eqn:Es; [|done].
    destruct (_ !! coordinate_string (end_lat t) (end_lng t)) as [e|] eqn:Ee; [|done].
    injection Hmap as <-. simpl.
    destruct (proj2 (coord_to_uuid_spec py_round py_str_float station_registry) _ _ Es)
      as (si & His & _).
    destruct (proj2 (coord_to_uuid_spec py_round py_str_float station_registry) _ _ Ee)
      as (ei & Hie & _).
    split; by eexists.
Qed.

#[local] Abbreviation registry_reflects :=
  (registry_reflects py_round py_str_float md5_uuid).

Lemma registry_add_reflects (seen : list (string * string * float * float))
    (reg : gmap string station_acc) (row : string * string * float * float) :
  registry_reflects seen reg ->
  registry_reflects (seen ++ [row]) (registry_add reg row).
Proof.
  intros Hinv u. destruct row as [[[id name] lat] lng]. unfold registry_add.
  specialize (Hinv u).
  destruct (decide (generate_station_uuid lat lng = u)) as [Heq|Hne].
  - rewrite Heq, lookup_insert_eq. simpl.
    destruct (reg !! u) as [e|] eqn:E; simpl.
    + destruct Hinv as (Hu & Hk & (id0 & name0 & Hseen) & Hcur & Hids & Hnames).
      split; [done|]. split; [done|].
      split; [exists id0, name0; apply elem_of_app; by left|].
      split; [apply elem_of_union; left; by apply elem_of_singleton|]. split.
      * intros id'. rewrite elem_of_union, elem_of_singleton, Hids. split.
        -- intros [->|(n & la & ln & Hin & Hg)].
           ++ exists name, lat, lng. split; [|done]. apply elem_of_app. right. by left.
           ++ exists n, la, ln. split; [|done]. apply elem_of_app. by left.
        -- intros (n & la & ln & Hin & Hg). apply elem_of_app in Hin as [Hin|Hin].
           ++ right. by exists n, la, ln.
           ++ apply list_elem_of_singleton in Hin. left. congruence.
      * intros name'. rewrite elem_of_union, elem_of_singleton, Hnames. split.
        -- intros [->|(i & la & ln & Hin & Hg)].
           ++ exists id, lat, lng. split; [|done]. apply elem_of_app. right. by left.
           ++ exists i, la, ln. split; [|done]. apply elem_of_app. by left.
        -- intros (i & la & ln & Hin & Hg). apply elem_of_app in Hin as [Hin|Hin].
           ++ right. by exists i, la, ln.
           ++ apply list_elem_of_singleton in Hin. left. congruence.
    + split; [done|]. split; [done|].
      split; [exists id, name; apply elem_of_app; right; by left|].
      split; [apply elem_of_union; left; by apply elem_of_singleton|]. split.
      * intros id'. rewrite elem_of_union, elem_of_singleton. split.
        -- intros [->|Hin]; [|by apply elem_of_empty in Hin].
           exists name, lat, lng. split; [|done]. apply elem_of_app. right. by left.
        -- intros (n & la & ln & Hin & Hg). apply elem_of_app in Hin as [Hin|Hin].
           ++ by destruct (Hinv _ _ _ _ Hin).
           ++ apply list_elem_of_singleton in Hin. left. congruence.
      * intros name'. rewrite elem_of_union, elem_of_singleton. split.
        -- intros [->|Hin]; [|by apply elem_of_empty in Hin].
           exists id, lat, lng. split; [|done]. apply elem_of_app. right. by left.
        -- intros (i & la & ln & Hin & Hg). apply elem_of_app in Hin as [Hin|Hin].
           ++ by destruct (Hinv _ _ _ _ Hin).
           ++ apply list_elem_of_singleton in Hin. left. congruence.
  - rewrite lookup_insert_ne by done.
    destruct (reg !! u) as [e|] eqn:E.
    + destruct Hinv as (Hu & Hk & (id0 & name0 & Hseen) & Hcur & Hids & Hnames).
      split; [done|]. split; [done|].
      split; [exists id0, name0; apply elem_of_app; by left|].
      split; [done|]. split.
      * intros id'. rewrite Hids. split.
        -- intros (n & la & ln & Hin & Hg). exists n, la, ln. split; [|done].
           apply elem_of_app. by left.
        -- intros (n & la & ln & Hin & Hg). apply elem_of_app in Hin as [Hin|Hin].
           ++ by exists n, la, ln.
           ++ apply list_elem_of_singleton in Hin. congruence.
      * intros name'. rewrite Hnames. split.
        -- intros (i & la & ln & Hin & Hg). exists i, la, ln. split; [|done].
           apply elem_of_app. by left.
        -- intros (i & la & ln & Hin & Hg). apply elem_of_app in Hin as [Hin|Hin].
           ++ by exists i, la, ln.
           ++ apply list_elem_of_singleton in Hin. congruence.
    + intros i n la ln Hin. apply elem_of_app in Hin as [Hin|Hin]; [by apply (Hinv i n la ln)|].
      apply list_elem_of_singleton in Hin. congruence.
Qed.

Lemma registry_fold_reflects (rows seen : list (string * string * float * float))
    (reg : gmap string station_acc) :
  registry_reflects seen reg ->
  registry_reflects (seen ++ rows) (fold_left registry_add rows reg).
Proof.
  revert seen reg. induction rows as [|row rows IH]; intros seen reg Hinv; simpl.
  - by rewrite app_nil_r.
  - rewrite (assoc_L (++) seen [row] rows : seen ++ row :: rows = (seen ++ [row]) ++ rows).
    apply IH, registry_add_reflects, Hinv.
Qed.

Lemma registry_acc_reflects (df : list trip) :
  registry_reflects (start_stations df ++ end_stations df) (registry_acc df).
Proof.
  unfold registry_acc. apply registry_fold_reflects.
  rewrite <- (app_nil_l (start_stations df)) at 1. apply registry_fold_reflects.
  intros u. rewrite lookup_empty. intros id name lat lng Hin. inversion Hin.
Qed.


End Identities.

Lemma sorted_union_elem (a b : list string) (x : string) :
  x ∈ sorted_union a b <-> x ∈ a \/ x ∈ b.
Proof.
  unfold sorted_union, py_sorted.
  by rewrite sort_by_elem, drop_duplicates_elem, elem_of_app.
Qed.

(** X7. The merged registry, key by key: an entry of the month is copied when
    the key is new; when the key is known, the stored uuid and coordinates
    stay, the name becomes the month's, and ids and names become the
    ascending duplicate-free union; an entry the month does not mention is
    left as it is. *)
Theorem merge_registry_lookup (station_registry existing_registry : gmap string station_info)
    (uuid : string) :
  merge_registry station_registry existing_registry !! uuid
  = match existing_registry !! uuid, station_registry !! uuid with
    | Some old, Some info =>
        Some (StationInfo (reg_uuid old) (reg_lat old) (reg_lng old)
                (current_name info)
                (sorted_union (bluebike_ids old) (bluebike_ids info))
                (sorted_union (all_names old) (all_names info)))
    | Some old, None => Some old
    | None, info => info
    end.
Proof.
  unfold merge_registry.
  apply (map_fold_weak_ind (fun merged (m : gmap string station_info) =>
    merged !! uuid
    = match existing_registry !! uuid, m !! uuid with
      | Some old, Some info =>
          Some (StationInfo (reg_uuid old) (reg_lat old) (reg_lng old)
                  (current_name info)
                  (sorted_union (bluebike_ids old) (bluebike_ids info))
                  (sorted_union (all_names old) (all_names info)))
      | Some old, None => Some old
      | None, info => info
      end)).
  - rewrite lookup_empty. by destruct (existing_registry !! uuid).
  - intros i info m merged Hi IH.
    destruct (decide (i = uuid)) as [->|Hne].
    + rewrite lookup_insert_eq. rewrite Hi in IH.
      destruct (existing_registry !! uuid) as [old|]; rewrite IH; by rewrite lookup_insert_eq.
    + rewrite (lookup_insert_ne m) by done.
      destruct (merged !! i); by rewrite lookup_insert_ne.
Qed.

(** ** Invariants of the merge *)

Lemma fold_beat_Some (l : list float) (b : float) :
  exists m, fold_left beat l (Some b) = Some m
    /\ (m = b \/ (m ∈ l /\ F64.lt m b))
    /\ forall t, t ∈ l -> (t <? m)%float = false.
Proof.
  revert b. induction l as [|t l IH]; intros b; simpl.
  - exists b. split; [done|]. split; [by left|]. intros t Ht. inversion Ht.
  - destruct (t <? b)%float eqn:E.
    + destruct (IH t) as (m & Hm & Hcase & Hmin). exists m. split; [done|]. split.
      * right. destruct Hcase as [->|[Hin Hlt]].
        -- split; [by left|done].
        -- split; [by right|]. by apply (F64.ltb_trans _ t).
      * intros t' [->|Ht']%elem_of_cons; [|by apply Hmin].
        destruct Hcase as [->|[_ Hlt]]; [apply F64.ltb_irrefl|by apply F64.ltb_asym].
    + destruct (IH b) as (m & Hm & Hcase & Hmin). exists m. split; [done|]. split.
      * destruct Hcase as [->|[Hin Hlt]]; [by left|]. right. split; [by right|done].
      * intros t' [->|Ht']%elem_of_cons; [|by apply Hmin].
        destruct Hcase as [->|[_ Hlt]]; [done|].
        destruct (t <? m)%float eqn:E'; [|done].
        by rewrite (F64.ltb_trans _ _ _ E' Hlt) in E.
Qed.

Lemma fold_beat_None (l : list float) :
  match fold_left beat l None with
  | None => l = []
  | Some m => m ∈ l /\ forall t, t ∈ l -> (t <? m)%float = false
  end.
Proof.
  destruct l as [|t l]; simpl; [done|].
  destruct (fold_beat_Some l t) as (m & -> & Hcase & Hmin). split.
  - destruct Hcase as [->|[Hin _]]; [by left|by right].
  - intros t' [->|Ht']%elem_of_cons; [|by apply Hmin].
    destruct Hcase as [->|[_ Hlt]]; [apply F64.ltb_irrefl|by apply F64.ltb_asym].
Qed.

(** The time that a run of merges leaves does not depend on their order,
    when every merged time is above one minute. *)
Lemma fold_beat_Permutation (l l' : list float) (best : option float) :
  l ≡ₚ l' -> (forall t, t ∈ l -> F64.lt 1 t) ->
  fold_left beat l best = fold_left beat l' best.
Proof.
  intros Hp Hpos.
  assert (forall t, t ∈ l' -> t ∈ l) as Hl' by (intros t; by rewrite Hp).
  assert (forall t, t ∈ l -> t ∈ l') as Hl by (intros t; by rewrite Hp).
  destruct best as [b|].
  - destruct (fold_beat_Some l b) as (m & -> & Hcase & Hmin).
    destruct (fold_beat_Some l' b) as (m' & -> & Hcase' & Hmin'). f_equal.
    destruct Hcase as [->|[Hin Hlt]], Hcase' as [->|[Hin' Hlt']]; try done.
    + by rewrite (Hmin m' (Hl' _ Hin')) in Hlt'.
    + by rewrite (Hmin' m (Hl _ Hin)) in Hlt.
    + apply F64.ltb_positive_eq.
      * apply F64.above_one_positive, Hpos, Hin.
      * apply F64.above_one_positive, Hpos, Hl', Hin'.
      * apply Hmin', Hl, Hin.
      * apply Hmin, Hl', Hin'.
  - pose proof (fold_beat_None l) as H. pose proof (fold_beat_None l') as H'.
    destruct (fold_left beat l None) as [m|], (fold_left beat l' None) as [m'|].
    + destruct H as [Hin Hmin], H' as [Hin' Hmin']. f_equal.
      apply F64.ltb_positive_eq.
      * apply F64.above_one_positive, Hpos, Hin.
      * apply F64.above_one_positive, Hpos, Hl', Hin'.
      * apply Hmin', Hl, Hin.
      * apply Hmin, Hl', Hin'.
    + subst l'. destruct H as [Hin _]. apply Hl in Hin. inversion Hin.
    + subst l. destruct H' as [Hin _]. apply Hl' in Hin. inversion Hin.
    + done.
Qed.

Section MergeInvariants.

Context (py_round : float -> Z -> float) (strftime : Z -> string).

#[local] Abbreviation new_destination := (new_destination py_round strftime).
#[local] Abbreviation merge_row := (merge_row py_round strftime).
#[local] Abbreviation merge_rows := (merge_rows py_round strftime).
#[local] Abbreviation create_station_data := (create_station_data py_round strftime).
#[local] Abbreviation merge_entry := (merge_entry py_round strftime).

Lemma same_or_faster_refl (d : destination) : same_or_faster d d.
Proof. right. done. Qed.

Lemma same_or_faster_trans (d1 d2 d3 : destination) :
  same_or_faster d1 d2 -> same_or_faster d2 d3 -> same_or_faster d1 d3.
Proof.
  intros [H12|H12] [H23|H23].
  - left. by apply (F64.ltb_trans _ (fastest_time_minutes d2)).
  - left. destruct H23 as (-> & _). done.
  - left. destruct H12 as (<- & _). done.
  - right. destruct H12 as (? & ? & ? & ? & ? & ? & ?).
    destruct H23 as (? & ? & ? & ? & ? & ? & ?). repeat split; congruence.
Qed.

Lemma merge_entry_same_or_faster (reg : gmap string station_info)
    (d d' : destination) (row : pair_row) :
  merge_entry reg (Some d) row = Some d' -> same_or_faster d d'.
Proof.
  unfold merge_entry.
  destruct (row_fastest_time_minutes row <? fastest_time_minutes d)%float eqn:E.
  - destruct (format_minutes _); simpl; [|done]. intros [= <-]. by left.
  - intros [= <-]. by right.
Qed.

Lemma merge_rows_same_or_faster (reg : gmap string station_info) (rows : list pair_row)
    (stations stations' : gmap string station) (pair : string * string) (d : destination) :
  merge_rows reg rows stations = Some stations' ->
  pair_lookup stations pair = Some d ->
  exists d', pair_lookup stations' pair = Some d' /\ same_or_faster d d'.
Proof.
  revert stations d. induction rows as [|row rows IH]; intros stations d; simpl.
  - intros [= <-] Hd. exists d. split; [done|apply same_or_faster_refl].
  - destruct (merge_row reg stations row) as [st1|] eqn:E; simpl; [|done].
    intros Hrows Hd.
    pose proof (merge_row_lookup py_round strftime _ _ _ _ pair E) as H1.
    destruct (decide (pair = row_key row)) as [->|Hne].
    + rewrite Hd in H1.
      destruct (pair_lookup st1 (row_key row)) as [d1|] eqn:E1.
      * symmetry in H1. apply merge_entry_same_or_faster in H1.
        destruct (IH _ _ Hrows E1) as (d' & Hd' & H').
        exists d'. split; [done|]. by apply (same_or_faster_trans _ d1).
      * exfalso. rewrite merge_row_entry in E.
        rewrite Hd in E. destruct (merge_entry _ _ _); [done|done].
    + rewrite Hd in H1. by apply (IH _ _ Hrows H1).
Qed.

(** X8. Once a pair has an entry it keeps one, and the record in it is only
    ever displaced by a strictly faster time: after any table is merged,
    either the fastest time is strictly smaller, or time, text, ride, date,
    distance and name are those of the entry before (only the count may
    differ). *)
Theorem record_displaced_only_by_faster (fastest_times_df : list pair_row)
    (station_registry existing_registry merged_registry : gmap string station_info)
    (existing_stations stations : gmap string station)
    (pair : string * string) (d : destination) :
  create_station_data fastest_times_df station_registry
    existing_stations existing_registry = Some (stations, merged_registry) ->
  pair_lookup existing_stations pair = Some d ->
  exists d', pair_lookup stations pair = Some d' /\ same_or_faster d d'.
Proof.
  unfold create_station_data.
  destruct (merge_rows _ fastest_times_df existing_stations) as [st|] eqn:E; simpl; [|done].
  intros [= <- <-]. by apply (merge_rows_same_or_faster _ _ _ _ _ _ E).
Qed.

(** The station entry under a key after one row: the entry of the row's
    start station gets one destination set, every other entry is as
    before. *)
Lemma merge_row_station (reg : gmap string station_info)
    (stations stations' : gmap string station) (row : pair_row) (u : string) :
  merge_row reg stations row = Some stations' ->
  if decide (u = row_start_station_uuid row)
  then exists d,
         merge_entry reg (pair_lookup stations (row_key row)) row = Some d
         /\ stations' !! u
            = Some (set_destination
                      (default (new_station reg row) (stations !! u))
                      (row_end_station_uuid row) d)
  else stations' !! u = stations !! u.
Proof.
  rewrite merge_row_entry.
  destruct (merge_entry reg _ row) as [d|] eqn:E; simpl; [|done].
  intros [= <-]. destruct (decide (u = row_start_station_uuid row)) as [->|Hne].
  - exists d. split; [done|]. by rewrite lookup_insert_eq.
  - by rewrite lookup_insert_ne.
Qed.

Lemma merge_rows_stations (reg : gmap string station_info) (rows : list pair_row)
    (stations stations' : gmap string station) :
  merge_rows reg rows stations = Some stations' ->
  (forall u st, stations !! u = Some st ->
     exists st', stations' !! u = Some st' /\ station_header st' = station_header st)
  /\ (forall u, is_Some (stations' !! u) <->
         is_Some (stations !! u) \/ u ∈ row_start_station_uuid <$> rows)
  /\ (forall pair, is_Some (pair_lookup stations' pair) <->
         is_Some (pair_lookup stations pair) \/ pair ∈ row_key <$> rows).
Proof.
  revert stations. induction rows as [|row rows IH]; intros stations; simpl.
  - intros [= <-]. split; [intros u st Hst; by exists st|].
    split; [intros u|intros pair]; rewrite elem_of_nil; tauto.
  - destruct (merge_row reg stations row) as [st1|] eqn:E; simpl; [|done].
    intros Hrows. destruct (IH _ Hrows) as (IH1 & IH2 & IH3). split; [|split].
    + intros u st Hst. pose proof (merge_row_station _ _ _ _ u E) as H1.
      destruct (decide (u = row_start_station_uuid row)) as [->|Hne].
      * destruct H1 as (d & _ & H1). rewrite Hst in H1. simpl in H1.
        destruct (IH1 _ _ H1) as (st' & Hst' & Hh). exists st'. split; [done|].
        by rewrite Hh.
      * rewrite Hst in H1. by apply IH1.
    + intros u. rewrite IH2, elem_of_cons.
      pose proof (merge_row_station _ _ _ _ u E) as H1.
      destruct (decide (u = row_start_station_uuid row)) as [->|Hne].
      * destruct H1 as (d & _ & ->). split; [auto|]. intros _. left. by eexists.
      * rewrite H1. tauto.
    + intros pair. rewrite IH3, elem_of_cons.
      rewrite (merge_row_lookup py_round strftime _ _ _ _ pair E).
      destruct (decide (pair = row_key row)) as [->|Hne]; [|tauto].
      split; [auto|]. intros _. left.
      rewrite merge_row_entry in E.
      destruct (merge_entry reg _ row) as [d|]; [by eexists|done].
Qed.

(** X9. Station entries are created, never rewritten: after any table is
    merged, a station that had an entry has one with the same uuid, name,
    coordinates, ids and names, whatever the registry has learnt since; the
    stations with an entry are those that had one and the start stations of
    the table; the pairs with an entry are those that had one and the pairs
    of the table. *)
Theorem station_entries_created_once (fastest_times_df : list pair_row)
    (station_registry existing_registry merged_registry : gmap string station_info)
    (existing_stations stations : gmap string station) :
  create_station_data fastest_times_df station_registry
    existing_stations existing_registry = Some (stations, merged_registry) ->
  (forall u st, existing_stations !! u = Some st ->
     exists st', stations !! u = Some st'
       /\ st_uuid st' = st_uuid st /\ st_name st' = st_name st
       /\ st_lat st' = st_lat st /\ st_lng st' = st_lng st
       /\ st_bluebike_ids st' = st_bluebike_ids st
       /\ st_all_names st' = st_all_names st)
  /\ (forall u, is_Some (stations !! u) <->
         is_Some (existing_stations !! u)
         \/ u ∈ row_start_station_uuid <$> fastest_times_df)
  /\ (forall pair, is_Some (pair_lookup stations pair) <->
         is_Some (pair_lookup existing_stations pair)
         \/ pair ∈ row_key <$> fastest_times_df).
Proof.
  unfold create_station_data.
  destruct (merge_rows _ fastest_times_df existing_stations) as [st|] eqn:E; simpl; [|done].
  intros [= <- <-]. destruct (merge_rows_stations _ _ _ _ E) as (H1 & H2 & H3).
  split; [|done]. intros u st0 Hst. destruct (H1 _ _ Hst) as (st' & Hst' & Hh).
  exists st'. split; [done|]. unfold station_header in Hh.
  injection Hh as -> -> -> -> -> ->. done.
Qed.

Lemma merge_row_consistent (reg : gmap string station_info)
    (stations stations' : gmap string station) (row : pair_row) :
  consistent_table stations ->
  merge_row reg stations row = Some stations' ->
  consistent_table stations'.
Proof.
  intros [Hst Hd] E. split.
  - intros u st Hu. pose proof (merge_row_station _ _ _ _ u E) as H1.
    destruct (decide (u = row_start_station_uuid row)) as [->|Hne].
    + destruct H1 as (d & _ & H1). rewrite Hu in H1. injection H1 as ->. simpl.
      destruct (stations !! row_start_station_uuid row) as [st0|] eqn:E0; simpl.
      * by apply Hst.
      * unfold new_station. by destruct (reg !! _).
    + rewrite Hu in H1. by apply Hst.
  - intros a b d Hab. rewrite (merge_row_lookup py_round strftime _ _ _ _ _ E) in Hab.
    destruct (decide ((a, b) = row_key row)) as [Heq|Hne]; [|by apply (Hd a b d)].
    unfold merge_entry in Hab.
    destruct (pair_lookup stations (row_key row)) as [d0|] eqn:E0.
    + rewrite <- Heq in E0. destruct (Hd _ _ _ E0) as [Hu Hf].
      destruct (row_fastest_time_minutes row <? fastest_time_minutes d0)%float.
      * destruct (format_minutes (row_fastest_time_minutes row)) as [text|] eqn:Ef;
          simpl in Hab; [|done].
        injection Hab as <-. simpl. split; [|done]. by injection Heq.
      * injection Hab as <-. simpl. done.
    + destruct (format_minutes (row_fastest_time_minutes row)) as [text|] eqn:Ef;
        simpl in Hab; [|done].
      injection Hab as <-. simpl. split; [|done]. by injection Heq.
Qed.

(** X10. Merging a table keeps the cumulative table consistent: every entry stays
    under its own uuid, and the text of a fastest time is always the format
    of the stored number, never that of an earlier record. *)
Theorem merge_keeps_table_consistent (fastest_times_df : list pair_row)
    (station_registry existing_registry merged_registry : gmap string station_info)
    (existing_stations stations : gmap string station) :
  consistent_table existing_stations ->
  create_station_data fastest_times_df station_registry
    existing_stations existing_registry = Some (stations, merged_registry) ->
  consistent_table stations.
Proof.
  unfold create_station_data. intros Hc.
  destruct (merge_rows _ fastest_times_df existing_stations) as [st|] eqn:E; simpl; [|done].
  intros [= <- <-]. revert existing_stations Hc E.
  generalize (merge_registry station_registry existing_registry).
  induction fastest_times_df as [|row rows IH]; intros reg stations0 Hc; simpl.
  - by intros [= <-].
  - destruct (merge_row reg stations0 row) as [st1|] eqn:E1; simpl; [|done].
    apply IH. by apply (merge_row_consistent reg stations0 _ row).
Qed.

#[local] Abbreviation merge_tables := (merge_tables py_round strftime).

Lemma merge_entry_time (reg : gmap string station_info) (old : option destination)
    (row : pair_row) (d : destination) :
  merge_entry reg old row = Some d ->
  Some (fastest_time_minutes d)
  = beat (fastest_time_minutes <$> old) (row_fastest_time_minutes row).
Proof.
  unfold merge_entry, beat. destruct old as [d0|]; simpl.
  - destruct (row_fastest_time_minutes row <? fastest_time_minutes d0)%float.
    + destruct (format_minutes _); simpl; [|done]. by intros [= <-].
    + by intros [= <-].
  - destruct (format_minutes _); simpl; [|done]. by intros [= <-].
Qed.

Lemma merge_rows_time (reg : gmap string station_info) (rows : list pair_row)
    (stations stations' : gmap string station) (pair : string * string) :
  merge_rows reg rows stations = Some stations' ->
  fastest_time_minutes <$> pair_lookup stations' pair
  = fold_left beat (times_of pair rows) (fastest_time_minutes <$> pair_lookup stations pair).
Proof.
  revert stations. induction rows as [|row rows IH]; intros stations; simpl.
  - by intros [= <-].
  - destruct (merge_row reg stations row) as [st1|] eqn:E; simpl; [|done].
    intros Hrows. rewrite (IH _ Hrows). unfold times_of. rewrite filter_cons.
    rewrite (merge_row_lookup py_round strftime _ _ _ _ pair E).
    destruct (decide (row_key row = pair)) as [<-|Hne].
    + rewrite decide_True by done. rewrite fmap_cons. simpl.
      rewrite merge_row_entry in E.
      destruct (merge_entry reg (pair_lookup stations (row_key row)) row) as [d|] eqn:Ed;
        [|done].
      simpl. by rewrite (merge_entry_time _ _ _ _ Ed).
    + rewrite decide_False by done. done.
Qed.

Lemma merge_tables_cons (month : list pair_row * gmap string station_info)
    (months : list (list pair_row * gmap string station_info))
    (state : gmap string station * gmap string station_info) :
  merge_tables (month :: months) state
  = create_station_data month.1 month.2 state.1 state.2 ≫= merge_tables months.
Proof.
  unfold merge_tables. simpl.
  destruct (create_station_data month.1 month.2 state.1 state.2) as [st|]; simpl; [done|].
  induction months as [|m ms IH]; simpl; [done|]. exact IH.
Qed.

Lemma merge_tables_time (months : list (list pair_row * gmap string station_info))
    (state state' : gmap string station * gmap string station_info)
    (pair : string * string) :
  merge_tables months state = Some state' ->
  fastest_time_minutes <$> pair_lookup state'.1 pair
  = fold_left beat (times_of pair (mjoin (fst <$> months)))
      (fastest_time_minutes <$> pair_lookup state.1 pair).
Proof.
  revert state. induction months as [|month months IH]; intros state.
  - by intros [= <-].
  - rewrite merge_tables_cons.
    destruct (create_station_data month.1 month.2 state.1 state.2) as [st|] eqn:E;
      simpl; [|done].
    intros Hrest. rewrite (IH _ Hrest). unfold times_of.
    rewrite filter_app, fmap_app, fold_left_app. f_equal.
    unfold create_station_data in E.
    destruct (merge_rows _ month.1 state.1) as [s|] eqn:Es; simpl in E; [|done].
    injection E as <-. simpl. by apply (merge_rows_time _ _ _ _ pair) in Es.
Qed.

(** X12. Whatever the order in which months are merged, the fastest time of
    every pair comes out the same (given that every time in the tables is
    above one minute, as the validity filter makes it). *)
Theorem fastest_time_ignores_month_order
    (months months' : list (list pair_row * gmap string station_info))
    (state state1 state2 : gmap string station * gmap string station_info)
    (pair : string * string) :
  months ≡ₚ months' ->
  (forall month row, month ∈ months -> row ∈ month.1 ->
                     F64.lt 1 (row_fastest_time_minutes row)) ->
  merge_tables months state = Some state1 ->
  merge_tables months' state = Some state2 ->
  fastest_time_minutes <$> pair_lookup state1.1 pair
  = fastest_time_minutes <$> pair_lookup state2.1 pair.
Proof.
  intros Hp Hvalid H1 H2.
  rewrite (merge_tables_time _ _ _ pair H1), (merge_tables_time _ _ _ pair H2).
  apply fold_beat_Permutation.
  - unfold times_of. by rewrite Hp.
  - intros t Ht. unfold times_of in Ht.
    apply list_elem_of_fmap in Ht as (row & -> & Hrow).
    apply list_elem_of_filter in Hrow as [_ Hrow].
    apply list_elem_of_join in Hrow as (rows & Hrow & Hrows).
    apply list_elem_of_fmap in Hrows as (month & -> & Hmonth).
    by apply (Hvalid month).
Qed.

End MergeInvariants.


(** ** The month's frame *)

Section Classic.

Context (py_round : float -> Z -> float)
        (py_str_float : float -> string)
        (md5_uuid : string -> string).

#[local] Abbreviation process_month_file :=
  (process_month_file py_round py_str_float md5_uuid).
#[local] Abbreviation batch_trips := (batch_trips py_round py_str_float md5_uuid).

(** X11. In a file with a [rideable_type] column only the classic bikes
    count: every trip of the month's frame is a classic-bike row of the
    file, and a row of another type, or of no type, can be taken out of the
    file without changing the month's frame or registry. *)
Theorem modern_file_counts_classic_bikes_only (f : month_file) :
  has_rideable_type f = true ->
  (forall r, r ∈ batch_trips f ->
     trip_of r ∈ file_rows f
     /\ rideable_type (trip_of r) = Some "classic_bike"%string)
  /\ (forall rows1 t rows2,
        file_rows f = rows1 ++ t :: rows2 ->
        rideable_type t <> Some "classic_bike"%string ->
        process_month_file f = process_month_file (MonthFile true (rows1 ++ rows2))).
Proof.
  intros Hmodern. split.
  - intros r Hr. unfold batch_trips, process_month_file in Hr. simpl in Hr.
    destruct (mapped_trip_keys py_round py_str_float md5_uuid _ _ _ Hr) as (Hin & _).
    apply list_elem_of_filter in Hin as [_ Hin].
    unfold classic_rows in Hin. rewrite Hmodern in Hin.
    by apply list_elem_of_filter in Hin as [Hc Hin].
  - intros rows1 t rows2 Hrows Ht. destruct f as [modern rows]. simpl in *. subst.
    unfold process_month_file.
    assert (classic_rows (MonthFile true (rows1 ++ t :: rows2))
            = classic_rows (MonthFile true (rows1 ++ rows2))) as ->; [|done].
    unfold classic_rows. simpl. rewrite !filter_app, filter_cons.
    by rewrite decide_False.
Qed.

End Classic.

(** ** The saved state *)

(** X13. Load, then save: the [station_pairs] of a file in the new format come
    back unchanged when the state loaded from it is written again. *)
Theorem loaded_pairs_save_back (metadata : metadata)
    (station_registry : option (gmap string station_info))
    (station_pairs : gmap string (gmap string pair_record)) :
  station_pairs_of
    (load_existing_data (Some (NewFormat metadata station_registry (Some station_pairs)))).1.1
  = station_pairs.
Proof.
  simpl. unfold station_pairs_of. apply map_eq. intros a.
  rewrite lookup_fmap, map_lookup_imap.
  destruct (station_pairs !! a) as [dests|] eqn:E; simpl; [|done]. f_equal.
  apply map_eq. intros b. rewrite lookup_fmap, map_lookup_imap.
  destruct (dests !! b) as [[]|] eqn:E'; simpl; done.
Qed.

(** X14. Save, then load: registry and metadata come back as they were; the
    same stations and pairs have entries; every pair keeps its time, text,
    count, distance, ride and date; uuids are the keys; and the names, and
    the station's coordinates, ids and names, are read from the registry
    ("Unknown" and nothing for a uuid that the registry lacks), not kept
    from the entry saved. *)
Theorem saved_state_loads_back (stations_data : gmap string station)
    (station_registry : gmap string station_info) (metadata : metadata) :
  let loaded :=
    load_existing_data (Some (data_with_metadata stations_data station_registry metadata)) in
  let name_of uuid := Some (default "Unknown"%string (current_name <$> station_registry !! uuid)) in
  loaded.1.2 = station_registry
  /\ loaded.2 = metadata
  /\ (forall u,
        match stations_data !! u, loaded.1.1 !! u with
        | Some st, Some st' =>
            st_uuid st' = u /\ st_name st' = name_of u
            /\ st_lat st' = reg_lat <$> station_registry !! u
            /\ st_lng st' = reg_lng <$> station_registry !! u
            /\ st_bluebike_ids st' = default [] (bluebike_ids <$> station_registry !! u)
            /\ st_all_names st' = Some <$> default [] (all_names <$> station_registry !! u)
        | None, None => True
        | _, _ => False
        end)
  /\ (forall a b,
        match pair_lookup stations_data (a, b), pair_lookup loaded.1.1 (a, b) with
        | Some d, Some d' =>
            dest_uuid d' = b /\ dest_name d' = name_of b
            /\ fastest_time_minutes d' = fastest_time_minutes d
            /\ fastest_time_formatted d' = fastest_time_formatted d
            /\ trip_count d' = trip_count d
            /\ distance_km d' = distance_km d
            /\ dest_ride_id d' = dest_ride_id d
            /\ date d' = date d
        | None, None => True
        | _, _ => False
        end).
Proof.
  intros loaded name_of. split; [done|]. split; [done|]. split.
  - intros u. unfold loaded. simpl. rewrite map_lookup_imap.
    unfold station_pairs_of. rewrite lookup_fmap.
    destruct (stations_data !! u) as [st|]; simpl; done.
  - intros a b. unfold loaded, pair_lookup. simpl. rewrite map_lookup_imap.
    unfold station_pairs_of. rewrite lookup_fmap.
    destruct (stations_data !! a) as [st|]; simpl; [|done].
    rewrite map_lookup_imap, lookup_fmap.
    destruct (destinations st !! b) as [d|]; simpl; done.
Qed.

(** ** File names *)

(** X15. The name of a station's page: at most twelve characters of the uuid,
    none of them a hyphen; for a uuid in the usual form, whose first two
    groups have eight and four characters, exactly those two groups, so that
    uuids which agree on them share one page. *)
Theorem safe_filename_shape (station_uuid : string) :
  (String.length (safe_filename station_uuid) <= 12)%nat
  /\ contains "-" (safe_filename station_uuid) = false
  /\ forall a b rest,
       station_uuid = (a ++ "-" ++ b ++ rest)%string ->
       String.length a = 8%nat -> String.length b = 4%nat ->
       contains "-" a = false -> contains "-" b = false ->
       safe_filename station_uuid = (a ++ b)%string.
Proof.
  unfold safe_filename. split; [apply length_substring_le|].
  split; [apply contains_char_substring, str_replace_char_removed|].
  intros a b rest -> Ha Hb Hca Hcb.
  rewrite str_replace_clean_prefix by done.
  rewrite (str_replace_occurrence "-" EmptyString "-" EmptyString _ eq_refl).
  rewrite str_replace_clean_prefix by done.
  change (EmptyString ++ ?x)%string with x.
  rewrite <- append_assoc.
  replace 12%nat with (String.length (a ++ b)) by (rewrite length_append; lia).
  apply substring_0_append.
Qed.

(** X16. Where a month's file is cached. A name that does not begin with a slash
    gets its zip under [cache/zip/] unchanged, and, when it is a stem
    without a dot followed by [.zip], its csv under [cache/csv/] with the
    extension changed; a name that begins with a slash is not put under the
    cache directory at all. *)
Theorem cache_paths (filename : string) :
  (String.prefix "/" filename = false ->
   get_cached_file_path filename "zip" = ("cache/zip/" ++ filename)%string)
  /\ (forall stem,
        filename = (stem ++ ".zip")%string ->
        String.prefix "/" filename = false -> contains "." stem = false ->
        get_cached_file_path filename "csv" = ("cache/csv/" ++ stem ++ ".csv")%string)
  /\ (String.prefix "/" filename = true ->
      get_cached_file_path filename "zip" = filename).
Proof.
  unfold get_cached_file_path. simpl String.eqb. cbv iota.
  rewrite str_replace_same by done. split; [|split].
  - intros Hp. unfold os_path_join. by rewrite Hp.
  - intros stem -> Hp Hc.
    assert (str_replace ".zip" ".csv" (stem ++ ".zip") = (stem ++ ".csv")%string) as ->.
    { clear Hp. induction stem as [|c stem IH]; [done|].
      apply contains_cons_false in Hc as [Hp Hc].
      change (str_replace ".zip" ".csv" (String c (stem ++ ".zip"))
              = String c (stem ++ ".csv")).
      rewrite str_replace_other; [by rewrite IH|].
      by apply prefix_cons_ne, prefix_char_false with (s := stem). }
    unfold os_path_join.
    assert (String.prefix "/" (stem ++ ".csv") = false) as ->.
    { destruct stem as [|c stem]; [done|].
      change (String.prefix "/" (String c (stem ++ ".zip")) = false) in Hp.
      change (String.prefix "/" (String c (stem ++ ".csv")) = false).
      rewrite prefix_char in Hp |- *. done. }
    done.
  - intros Hp. unfold os_path_join. by rewrite Hp.
Qed.

Ltac by_cases c := destruct c as [[] [] [] [] [] [] [] []]; vm_compute; try done.

Lemma kept_lower_safe (c : ascii) :
  kept c = true -> safe_char (lower c) = true \/ is_space (lower c) = true.
Proof. by_cases c; auto. Qed.

Lemma not_sep_safe (c : ascii) :
  safe_char c = true \/ is_space c = true ->
  Ascii.eqb c "-" || is_space c = false -> safe_char c = true.
Proof. by_cases c; intros [?|?]; done. Qed.

Lemma not_sep_not_hyphen (c : ascii) :
  Ascii.eqb c "-" || is_space c = false -> c <> "-"%char.
Proof. intros H ->. done. Qed.

Lemma safe_char_kept (c : ascii) : safe_char c = true -> kept c = true.
Proof. by_cases c. Qed.

Lemma safe_char_not_space (c : ascii) : safe_char c = true -> is_space c = false.
Proof. by_cases c. Qed.

Lemma safe_char_lower (c : ascii) : safe_char c = true -> lower c = c.
Proof. by_cases c. Qed.

Lemma safe_char_sep (c : ascii) :
  safe_char c = true -> Ascii.eqb c "-" || is_space c = true -> c = "-"%char.
Proof. by_cases c. Qed.

Lemma kept_lower (c : ascii) : kept (lower c) = kept c.
Proof. by_cases c. Qed.

Lemma is_space_lower (c : ascii) : is_space (lower c) = is_space c.
Proof. by_cases c. Qed.

Lemma lower_lower (c : ascii) : lower (lower c) = lower c.
Proof. by_cases c. Qed.

Lemma str_forall_filter (p : ascii -> bool) (s : string) :
  str_forall p (str_filter p s) = true.
Proof.
  induction s as [|c s IH]; [done|]. simpl. destruct (p c) eqn:E; [|done].
  simpl. by rewrite E.
Qed.

Lemma str_forall_lstrip (p : ascii -> bool) (s : string) :
  str_forall p s = true -> str_forall p (lstrip s) = true.
Proof.
  induction s as [|c s IH]; [done|]. simpl. intros [Hc Hs]%andb_true_iff.
  destruct (is_space c); [by apply IH|]. simpl. by rewrite Hc.
Qed.

Lemma str_forall_rstrip (p : ascii -> bool) (s : string) :
  str_forall p s = true -> str_forall p (rstrip s) = true.
Proof.
  induction s as [|c s IH]; [done|]. simpl. intros [Hc Hs]%andb_true_iff.
  specialize (IH Hs). destruct (rstrip s) as [|c' r].
  - destruct (is_space c); [done|]. simpl. by rewrite Hc.
  - change (p c && str_forall p (String c' r) = true). by rewrite Hc, IH.
Qed.

Lemma str_forall_map (p q : ascii -> bool) (f : ascii -> ascii) (s : string) :
  (forall c, p c = true -> q (f c) = true) ->
  str_forall p s = true -> str_forall q (str_map f s) = true.
Proof.
  intros Hf. induction s as [|c s IH]; [done|]. simpl.
  intros [Hc Hs]%andb_true_iff. by rewrite (Hf c Hc), IH.
Qed.

Lemma collapse_runs_safe (in_run : bool) (s : string) :
  str_forall (fun c => safe_char c || is_space c) s = true ->
  str_forall safe_char (collapse_runs in_run s) = true.
Proof.
  revert in_run. induction s as [|c s IH]; intros in_run; [done|]. simpl.
  intros [Hc Hs]%andb_true_iff.
  destruct (Ascii.eqb c "-" || is_space c) eqn:E.
  - destruct in_run; [by apply IH|]. cbn [str_forall]. by rewrite IH.
  - cbn [str_forall]. rewrite IH by done. rewrite not_sep_safe; [done| |done].
    by apply orb_true_iff.
Qed.

Lemma collapse_runs_no_double (in_run : bool) (s : string) :
  contains "--" (collapse_runs in_run s) = false
  /\ (in_run = true -> String.prefix "-" (collapse_runs in_run s) = false).
Proof.
  revert in_run. induction s as [|c s IH]; intros in_run; [done|]. simpl.
  destruct (Ascii.eqb c "-" || is_space c) eqn:E.
  - destruct in_run; [apply IH|]. split; [|done].
    destruct (IH true) as [IH1 IH2]. cbn [contains].
    rewrite IH1, orb_false_r, prefix_two, IH2 by done. apply andb_false_r.
  - destruct (IH false) as [IH1 _]. apply not_sep_not_hyphen in E. split.
    + cbn [contains]. rewrite IH1, orb_false_r, prefix_two.
      by rewrite bool_decide_eq_false_2.
    + intros _. rewrite prefix_char. by rewrite bool_decide_eq_false_2.
Qed.

Lemma create_safe_filename_chars (station_name : string) :
  str_forall safe_char (create_safe_filename station_name) = true
  /\ contains "--" (create_safe_filename station_name) = false.
Proof.
  unfold create_safe_filename. split; [|apply collapse_runs_no_double].
  apply collapse_runs_safe.
  apply (str_forall_map kept).
  - intros c Hc. apply orb_true_iff. by apply kept_lower_safe.
  - apply str_forall_rstrip, str_forall_lstrip, str_forall_filter.
Qed.

(** X17. The file name made from an ASCII station name consists of lower-case
    letters, digits, underscores and hyphens, with no two hyphens in a
    row. *)
Theorem create_safe_filename_shape (station_name : string) :
  str_forall is_ascii station_name = true ->
  str_forall safe_char (create_safe_filename station_name) = true
  /\ contains "--" (create_safe_filename station_name) = false.
Proof. intros _. apply create_safe_filename_chars. Qed.

Lemma str_filter_id (p : ascii -> bool) (s : string) :
  str_forall p s = true -> str_filter p s = s.
Proof.
  induction s as [|c s IH]; [done|]. simpl. intros [-> Hs]%andb_true_iff.
  by rewrite IH.
Qed.

Lemma str_map_id (p : ascii -> bool) (f : ascii -> ascii) (s : string) :
  (forall c, p c = true -> f c = c) -> str_forall p s = true -> str_map f s = s.
Proof.
  intros Hf. induction s as [|c s IH]; [done|]. simpl. intros [Hc Hs]%andb_true_iff.
  by rewrite (Hf c Hc), IH.
Qed.

Lemma strip_id (s : string) : str_forall safe_char s = true -> strip s = s.
Proof.
  intros Hs. unfold strip.
  assert (lstrip s = s) as ->.
  { destruct s as [|c s]; [done|]. simpl in *. apply andb_true_iff in Hs as [Hc _].
    by rewrite (safe_char_not_space c Hc). }
  induction s as [|c s IH]; [done|]. simpl in *. apply andb_true_iff in Hs as [Hc Hs].
  rewrite (IH Hs). rewrite (safe_char_not_space c Hc). by destruct s.
Qed.

Lemma collapse_runs_id (in_run : bool) (s : string) :
  str_forall safe_char s = true -> contains "--" s = false ->
  (in_run = true -> String.prefix "-" s = false) ->
  collapse_runs in_run s = s.
Proof.
  revert in_run. induction s as [|c s IH]; intros in_run; [done|].
  cbn [str_forall contains collapse_runs].
  intros [Hc Hs]%andb_true_iff [Hp Hd]%orb_false_iff Hrun.
  destruct (Ascii.eqb c "-" || is_space c) eqn:E.
  - apply (safe_char_sep c Hc) in E as ->.
    destruct in_run.
    + specialize (Hrun eq_refl). rewrite prefix_char in Hrun.
      by rewrite bool_decide_eq_true_2 in Hrun.
    + f_equal. apply IH; [done|done|]. intros _. rewrite prefix_two in Hp.
      by rewrite bool_decide_eq_true_2 in Hp.
  - by rewrite IH.
Qed.

(** X18. Making a file name from the file name of an ASCII station name
    changes nothing. *)
Theorem create_safe_filename_idempotent (station_name : string) :
  str_forall is_ascii station_name = true ->
  create_safe_filename (create_safe_filename station_name)
  = create_safe_filename station_name.
Proof.
  intros _. destruct (create_safe_filename_chars station_name) as [Hsafe Hd].
  generalize dependent (create_safe_filename station_name). intros name Hsafe Hd.
  unfold create_safe_filename.
  rewrite (str_filter_id kept).
  - rewrite strip_id by done. rewrite (str_map_id safe_char) by auto using safe_char_lower.
    by apply collapse_runs_id.
  - clear Hd. induction name as [|c s IH]; [done|]. simpl in *.
    apply andb_true_iff in Hsafe as [Hc Hs]. by rewrite (safe_char_kept c Hc), IH.
Qed.

Lemma str_filter_map (s : string) :
  str_filter kept (str_map lower s) = str_map lower (str_filter kept s).
Proof.
  induction s as [|c s IH]; [done|]. simpl. rewrite kept_lower.
  destruct (kept c); simpl; by rewrite IH.
Qed.

Lemma lstrip_map (s : string) : lstrip (str_map lower s) = str_map lower (lstrip s).
Proof.
  induction s as [|c s IH]; [done|]. simpl. rewrite is_space_lower.
  by destruct (is_space c).
Qed.

Lemma rstrip_map (s : string) : rstrip (str_map lower s) = str_map lower (rstrip s).
Proof.
  induction s as [|c s IH]; [done|]. simpl. rewrite IH, is_space_lower.
  destruct (rstrip s); simpl; [|done]. by destruct (is_space c).
Qed.

Lemma str_map_lower_twice (s : string) :
  str_map lower (str_map lower s) = str_map lower s.
Proof.
  induction s as [|c s IH]; [done|]. simpl. by rewrite lower_lower, IH.
Qed.

(** X19. The file name does not tell upper case from lower case: a name and its
    lower-case form get the same file. *)
Theorem create_safe_filename_ignores_case (station_name : string) :
  str_forall is_ascii station_name = true ->
  create_safe_filename (str_map lower station_name) = create_safe_filename station_name.
Proof.
  intros _. unfold create_safe_filename, strip.
  by rewrite str_filter_map, lstrip_map, rstrip_map, str_map_lower_twice.
Qed.

(** * Worked examples

    The statements above at the example months: witnesses of their
    hypotheses, and the inputs at which the specification and the code part
    ways. *)
Module Examples.

Import Months.

#[local] Set Warnings "-inexact-float".

(** ** The duration format *)

Example format_minutes_7_5 : format_minutes 7.5 = Some "7:30"%string.
Proof. vm_compute. reflexivity. Qed.

Example format_minutes_5 : format_minutes 5 = Some "5:00"%string.
Proof. vm_compute. reflexivity. Qed.

Example format_minutes_7_1 : format_minutes 0x1.c666666666666p+2 = Some "7:05"%string.
Proof. vm_compute. reflexivity. Qed.

Example format_minutes_nan : format_minutes nan = None.
Proof. vm_compute. reflexivity. Qed.

(** ** The merge (C1, C2, C4) *)

(** C1 at a failing input. January leaves the pair with 3 attempts at 7.5
    minutes; February brings 2 attempts and a faster time of 5 minutes.
    After the merge the pair has February's time and February's 2 attempts:
    the 3 attempts of January are gone. *)
Theorem replace_branch_loses_attempts :
  attempts_after [january] = Some 3
  /\ fastest_after [january] = Some 7.5%float
  /\ row_trip_count <$> february_table = [2]
  /\ fastest_after [january; february] = Some 5%float
  /\ attempts_after [january; february] = Some 2.
Proof. repeat split; vm_compute; reflexivity. Qed.

(** C2 at a failing input. Merged into an empty state in either order, the
    two months leave the same fastest time, the smaller of the two, but not
    the same count: 2 when the faster month comes last, 5 when it comes
    first. *)
Theorem merge_order_changes_attempts :
  fastest_after [january; february] = Some 5%float
  /\ fastest_after [february; january] = Some 5%float
  /\ attempts_after [january; february] = Some 2
  /\ attempts_after [february; january] = Some 5.
Proof. repeat split; vm_compute; reflexivity. Qed.

(** C4 at the example months: February's entry (5 minutes, 2 attempts) is
    in the table when January's row (7.5 minutes, 3 attempts) is merged; the
    entry keeps February's time and ride and has 5 attempts. *)
Lemma slower_batch_keeps_record_witness :
  fastest_time_minutes february_entry = 5%float
  /\ trip_count february_entry = 2
  /\ row_fastest_time_minutes january_row = 7.5%float
  /\ row_trip_count january_row = 3
  /\ exists stations merged_registry d,
       Sample.create_station_data january_table (Sample.process_month_file january).2
         after_february ∅ = Some (stations, merged_registry)
       /\ pair_lookup stations (row_key january_row) = Some d
       /\ fastest_time_minutes d = 5%float
       /\ dest_ride_id d = "r4"%string
       /\ trip_count d = 5.
Proof.
  repeat (split; [reflexivity|]).
  destruct (slower_batch_keeps_record Sample.py_round Sample.strftime
              january_table (Sample.process_month_file january).2 ∅
              after_february january_row february_entry)
    as (stations & merged & d & H1 & H2 & H3 & H4 & _ & _ & _ & _ & _ & H5).
  - repeat constructor. intros H. inversion H.
  - intros r Hr. apply list_elem_of_singleton in Hr as ->. by eexists.
  - by left.
  - vm_compute. reflexivity.
  - reflexivity.
  - exists stations, merged, d. repeat split; assumption.
Defined.

(** ** Identities (C5, C6, C10) *)

(** C6 at a coordinate pair of the example months: rounding is idempotent
    there, and the key of the pair is the key of the rounded pair. *)
Lemma identity_key_of_rounded_witness :
  Sample.py_round (Sample.py_round 42.3600001 6) 6 = Sample.py_round 42.3600001 6
  /\ Sample.generate_station_uuid 42.3600001 (-71.094) = dock_A
  /\ Sample.generate_station_uuid 42.3600001 (-71.094)
     = Sample.generate_station_uuid (Sample.py_round 42.3600001 6)
         (Sample.py_round (-71.094) 6).
Proof.
  split; [vm_compute; reflexivity|]. split; [vm_compute; reflexivity|].
  apply (identity_key_of_rounded Sample.py_round Sample.py_str_float Sample.md5_uuid
           42.3600001 (-71.094)); vm_compute; reflexivity.
Defined.




(** ** The pair table (C3, C8, C9) *)

(** Two floats that differ as data are different. *)
Lemma float_neq (x y : float) : PrimFloat.Leibniz.eqb x y = false -> x <> y.
Proof.
  intros H Heq. apply FloatAxioms.Leibniz.eqb_spec in Heq. congruence.
Qed.

(** C3 as stated fails. In the winter file the identity of the start dock
    keeps the coordinates of its first observation (latitude 42.3600001),
    while the distance of the pair is computed from the coordinates of the
    fastest ride (latitude 42.3600004); with the library functions of
    [Sample] the two distances differ, and the entry stored for the pair has
    the distance rounded to two decimals. Whatever the [math] functions
    are, the distance of the row is the haversine formula at latitude
    42.3600004. *)
Lemma distance_not_from_first_seen_coordinates :
  exists info_s info_e,
    winter_row ∈ Sample.batch_pair_table winter
    /\ winter_registry !! row_start_station_uuid winter_row = Some info_s
    /\ winter_registry !! row_end_station_uuid winter_row = Some info_e
    /\ reg_lat info_s = 42.3600001%float
    /\ start_lat (row_fastest_ride winter_row) = 42.3600004%float
    /\ reg_lat info_s <> start_lat (row_fastest_ride winter_row)
    /\ row_distance_km winter_row
       <> Sample.haversine_distance (reg_lat info_s) (reg_lng info_s)
            (reg_lat info_e) (reg_lng info_e)
    /\ (distance_km <$> (merge_months [winter]
                           ≫= fun stations => pair_lookup stations (dock_A, dock_B)))
       = Some 0.65%float
    /\ forall math_radians math_sin math_cos math_asin math_sqrt py_pow,
         row_distance_km
           <$> batch_pair_table Sample.py_round Sample.py_str_float Sample.md5_uuid
                 math_radians math_sin math_cos math_asin math_sqrt py_pow winter
         = [haversine_distance math_radians math_sin math_cos math_asin math_sqrt py_pow
              42.3600004 (-71.094) 42.365 (-71.09)].
Proof.
  exists (StationInfo dock_A 42.3600001 (-71.094) "A2" ["012X"; "12"] ["A"; "A2"])%string,
         (StationInfo dock_B 42.365 (-71.09) "B" ["B"] ["B"])%string.
  split; [vm_compute; left|].
  repeat (split; [vm_compute; reflexivity|]).
  split; [apply float_neq; vm_compute; reflexivity|].
  split; [apply float_neq; vm_compute; reflexivity|].
  split; [vm_compute; reflexivity|].
  intros math_radians math_sin math_cos math_asin math_sqrt py_pow.
  vm_compute. reflexivity.
Defined.

(** C3, as amended, at the winter file. *)
Lemma distance_from_fastest_ride_witness :
  winter_row ∈ Sample.batch_pair_table winter
  /\ (exists r,
        r ∈ Sample.batch_trips winter /\ row_fastest_ride winter_row = trip_of r
        /\ row_distance_km winter_row
           = Sample.haversine_distance (start_lat (trip_of r)) (start_lng (trip_of r))
               (end_lat (trip_of r)) (end_lng (trip_of r)))
  /\ forall merged_registry formatted,
       distance_km (new_destination Sample.py_round Sample.strftime
                      merged_registry winter_row formatted)
       = Sample.py_round (row_distance_km winter_row) 2.
Proof.
  assert (winter_row ∈ Sample.batch_pair_table winter) as Hin by (vm_compute; left).
  split; [exact Hin|].
  destruct (distance_from_fastest_ride Sample.py_round Sample.py_str_float
              Sample.md5_uuid Sample.math_radians Sample.math_sin Sample.math_cos
              Sample.math_asin Sample.math_sqrt Sample.py_pow Sample.strftime
              winter winter_row Hin)
    as [(r & Hr & Hride & _ & _ & _ & Hdist) Hstored].
  split; [|exact Hstored]. exists r. repeat split; assumption.
Defined.

(** The example of C8 merged into an empty cumulative table. *)
Example two_trips_entry :
  (fun d => (fastest_time_minutes d, fastest_time_formatted d, trip_count d))
    <$> (merge_months [two_trips] ≫= fun stations => pair_lookup stations (dock_A, dock_B))
  = Some (5%float, "5:00"%string, 2).
Proof. vm_compute. reflexivity. Qed.


(** C9 at January's file with a trip of half a minute added: the pair table
    is the one of January. *)
Lemma only_valid_trips_contribute_witness :
  valid_trip too_short = false
  /\ Sample.batch_pair_table january_with_short_trip = Sample.batch_pair_table january.
Proof.
  split; [vm_compute; reflexivity|].
  apply (proj2 (proj2 (only_valid_trips_contribute Sample.py_round Sample.py_str_float
                         Sample.md5_uuid Sample.math_radians Sample.math_sin
                         Sample.math_cos Sample.math_asin Sample.math_sqrt Sample.py_pow
                         january_with_short_trip))
           [ride "r1" 100 "12" "A" 42.3600001 7.5] too_short
           [ride "r2" 200 "12" "A" 42.3600001 8; ride "r3" 300 "12" "A" 42.3600001 9]).
  - reflexivity.
  - intros (H & _). vm_compute in H. discriminate.
Defined.

(** ** The month loop (C7) *)

Example months_to_process :
  unprocessed_months
    ["202401-bluebikes-tripdata.zip"; "202403-bluebikes-tripdata.zip";
     "202402-bluebikes-tripdata.zip"]%string
    ["202401"]%string
  = ["202402"; "202403"]%string.
Proof. vm_compute. reflexivity. Qed.

(** ** The file list (X1, X2) *)

Example fetch_all_data_files_listing :
  fetch_all_data_files listing = Some listed_files
  /\ fetch_all_data_files ["index.html"; "201501-hubway-tripdata.zip"]%string = None.
Proof. split; vm_compute; reflexivity. Qed.

(** X2 at the listing: February is to be processed, and its file is
    found. *)
Lemma work_months_have_files_witness :
  String.length "202402" = 6%nat
  /\ String.leb "201805" "202402" = true
  /\ exists filename,
       file_of_month listed_files "202402" = Some filename
       /\ filename ∈ listing
       /\ filename <> EmptyString
       /\ extract_month_from_filename filename = "202402"%string.
Proof.
  apply (work_months_have_files listing listed_files ["202401"%string] "202402").
  - vm_compute. reflexivity.
  - vm_compute. left.
Defined.

(** ** The merge (X8, X9, X10, X11, X12) *)

(** X8 at the example months: January's record of 7.5 minutes is displaced
    by February's 5 minutes. *)
Lemma record_displaced_only_by_faster_witness :
  exists d,
    pair_lookup after_january_february.1 (dock_A, dock_B) = Some d
    /\ same_or_faster january_entry d.
Proof.
  apply (record_displaced_only_by_faster Sample.py_round Sample.strftime
           february_month.1 february_month.2 january_state.2 after_january_february.2
           after_january after_january_february.1 (dock_A, dock_B) january_entry).
  - vm_compute. reflexivity.
  - vm_compute. reflexivity.
Defined.

(** X9 at the example months: the station entry made in January, with
    January's name and raw id, is as it was after February, although the
    registry has February's name and both ids by then. *)
Lemma station_entries_created_once_witness :
  (exists st',
     after_january_february.1 !! dock_A = Some st'
     /\ st_name st' = Some "A"%string
     /\ st_bluebike_ids st' = ["12"%string])
  /\ (current_name <$> after_january_february.2 !! dock_A) = Some "A2"%string
  /\ (bluebike_ids <$> after_january_february.2 !! dock_A)
     = Some ["012X"; "12"]%string
  /\ (is_Some (after_january_february.1 !! dock_B) <->
        is_Some (after_january !! dock_B)
        \/ dock_B ∈ row_start_station_uuid <$> february_month.1).
Proof.
  destruct (station_entries_created_once Sample.py_round Sample.strftime
              february_month.1 february_month.2 january_state.2 after_january_february.2
              after_january after_january_february.1) as (H1 & H2 & _).
  - vm_compute. reflexivity.
  - split; [|split; [vm_compute; reflexivity|split; [vm_compute; reflexivity|apply H2]]].
    destruct (H1 dock_A (default (new_station ∅ january_row) (after_january !! dock_A)))
      as (st' & Hst' & _ & Hname & _ & _ & Hids & _).
    + vm_compute. reflexivity.
    + exists st'. split; [exact Hst'|]. split; [rewrite Hname|rewrite Hids];
        vm_compute; reflexivity.
Defined.

(** X10 at the example months: the empty table is consistent, so the table
    that January leaves is. *)
Lemma merge_keeps_table_consistent_witness :
  consistent_table after_january.
Proof.
  apply (merge_keeps_table_consistent Sample.py_round Sample.strftime
           january_month.1 january_month.2 ∅ january_state.2 ∅ after_january).
  - split.
    + intros u st H. by rewrite lookup_empty in H.
    + intros a b d H. unfold pair_lookup in H. simpl in H.
      by rewrite lookup_empty in H.
  - vm_compute. reflexivity.
Defined.

(** The replace branch at the example months: February's 5 minutes beat
    January's 7.5; the entry takes February's time, ride and count of 2. *)
Lemma faster_batch_replaces_record_witness :
  exists stations merged_registry d,
    Sample.create_station_data february_table (Sample.process_month_file february).2
      after_january ∅ = Some (stations, merged_registry)
    /\ pair_lookup stations (row_key february_row) = Some d
    /\ fastest_time_minutes d = 5%float
    /\ dest_ride_id d = "r4"%string
    /\ trip_count d = 2.
Proof.
  destruct (faster_batch_replaces_record Sample.py_round Sample.strftime
              february_table (Sample.process_month_file february).2 ∅
              after_january february_row january_entry)
    as (stations & merged & d & H1 & H2 & H3 & H4 & _ & H5).
  - repeat constructor. intros H. inversion H.
  - intros r Hr. apply list_elem_of_singleton in Hr as ->. by eexists.
  - by left.
  - vm_compute. reflexivity.
  - reflexivity.
  - exists stations, merged, d. repeat split; assumption.
Defined.

(** X12 at the example months: January then February, and February then
    January, leave the same fastest time for the pair. *)
Lemma fastest_time_ignores_month_order_witness :
  exists state1 state2,
    Sample.merge_tables [january_month; february_month] (∅, ∅) = Some state1
    /\ Sample.merge_tables [february_month; january_month] (∅, ∅) = Some state2
    /\ fastest_time_minutes <$> pair_lookup state1.1 (dock_A, dock_B)
       = fastest_time_minutes <$> pair_lookup state2.1 (dock_A, dock_B).
Proof.
  exists (default (∅, ∅) (Sample.merge_tables [january_month; february_month] (∅, ∅))),
         (default (∅, ∅) (Sample.merge_tables [february_month; january_month] (∅, ∅))).
  split; [vm_compute; reflexivity|]. split; [vm_compute; reflexivity|].
  apply (fastest_time_ignores_month_order Sample.py_round Sample.strftime
           [january_month; february_month] [february_month; january_month] (∅, ∅)).
  - apply perm_swap.
  - intros month row Hmonth Hrow.
    apply elem_of_cons in Hmonth as [->|Hmonth].
    + apply list_elem_of_singleton in Hrow as ->. vm_compute. reflexivity.
    + apply list_elem_of_singleton in Hmonth as ->.
      apply list_elem_of_singleton in Hrow as ->. vm_compute. reflexivity.
  - vm_compute. reflexivity.
  - vm_compute. reflexivity.
Defined.

(** ** The month's frame (X11) *)

(** X11 at a file with one classic and one electric bike: the frame holds
    the classic trip only, although the electric one is faster. *)
Lemma modern_file_counts_classic_bikes_only_witness :
  (ride_id ∘ trip_of <$> Sample.batch_trips march) = ["r7"%string]
  /\ forall r, r ∈ Sample.batch_trips march ->
       trip_of r ∈ file_rows march
       /\ rideable_type (trip_of r) = Some "classic_bike"%string.
Proof.
  split; [vm_compute; reflexivity|].
  apply (modern_file_counts_classic_bikes_only Sample.py_round Sample.py_str_float
           Sample.md5_uuid march).
  reflexivity.
Defined.

(** ** File names (X15 to X19) *)

Example safe_filename_uuid :
  safe_filename "0a1b2c3d-4e5f-6789-abcd-ef0123456789" = "0a1b2c3d4e5f"%string
  /\ safe_filename "0a1b2c3d-4e5f-0000-0000-000000000000" = "0a1b2c3d4e5f"%string.
Proof. split; vm_compute; reflexivity. Qed.

Example get_cached_file_path_month :
  get_cached_file_path "202401-bluebikes-tripdata.zip" "zip"
  = "cache/zip/202401-bluebikes-tripdata.zip"%string
  /\ get_cached_file_path "202401-bluebikes-tripdata.zip" "csv"
     = "cache/csv/202401-bluebikes-tripdata.csv"%string.
Proof. split; vm_compute; reflexivity. Qed.

(** X17 at a station name. *)
Lemma create_safe_filename_shape_witness :
  create_safe_filename "  MIT at Mass Ave / Amherst St " = "mit-at-mass-ave-amherst-st"%string
  /\ str_forall safe_char (create_safe_filename "  MIT at Mass Ave / Amherst St ") = true
  /\ contains "--" (create_safe_filename "  MIT at Mass Ave / Amherst St ") = false.
Proof.
  split; [vm_compute; reflexivity|].
  apply (create_safe_filename_shape "  MIT at Mass Ave / Amherst St ").
  vm_compute. reflexivity.
Defined.

(** X18 at a station name. *)
Lemma create_safe_filename_idempotent_witness :
  create_safe_filename (create_safe_filename "Harvard Square - Brattle St. (TEMP)")
  = create_safe_filename "Harvard Square - Brattle St. (TEMP)".
Proof.
  apply (create_safe_filename_idempotent "Harvard Square - Brattle St. (TEMP)").
  vm_compute. reflexivity.
Defined.

(** X19 at a station name. *)
Lemma create_safe_filename_ignores_case_witness :
  create_safe_filename "harvard square - brattle st. (temp)"
  = create_safe_filename "Harvard Square - Brattle St. (TEMP)".
Proof.
  apply (create_safe_filename_ignores_case "Harvard Square - Brattle St. (TEMP)").
  vm_compute. reflexivity.
Defined.

End Examples.
